(** * fulcrum_gpx_convert.py: GPX tracks to Fulcrum record geometries

    A shallow embedding of [src/fulcrum_gpx_convert.py] and the properties
    of its specification.

    The script is a linear pipeline: it checks its inputs, loads the API
    token and the CSV table, scans the track directory, and per track file
    fetches and replaces the remote record and overwrites the geometry cell
    of the matching row; it rewrites the CSV once at the end.

    Modelling choices.
    - Strings are [string]: the UTF-8 bytes of Python's text. The order
      of these bytes is the order of the code points, and [strip]
      removes the encodings of the whitespace characters.
    - Python floats and their rendering by an f-string are the runtime's:
      they are the class [PyFloat].
    - The remote service is the class [Network]: a state and a function
      that answers one request. The gpxpy, csv and requests libraries are
      represented by their results ([disk], [response]).
    - Exceptions and [sys.exit] are an error monad [io] over the machine
      state (the remote service and the log of effects). *)

From Stdlib Require Import ZArith String Ascii List Lia Permutation Sorted.
From Stdlib Require Import DecimalString DecimalZ DecimalPos.
From stdpp Require Import base gmap list strings sorting.

Set Warnings "-register-all".

(** ** Strings *)

(** [sep.join(parts)] *)
Fixpoint str_join (sep : string) (parts : list string) : string :=
  match parts with
  | [] => ""
  | [p] => p
  | p :: rest => p +:+ sep +:+ str_join sep rest
  end.

(** [s.endswith(suffix)] *)
Definition endswith (s suffix : string) : bool :=
  let n := String.length s in
  let k := String.length suffix in
  (k <=? n) && String.eqb (String.substring (n - k) k s) suffix.

(** [s.rfind(c)], [None] for -1 *)
Fixpoint rfind (c : ascii) (s : string) : option nat :=
  match s with
  | EmptyString => None
  | String a s' =>
      match rfind c s' with
      | Some i => Some (S i)
      | None => if Ascii.eqb a c then Some 0 else None
      end
  end.

(** [PurePath.stem]: the name up to its last dot, unless that dot is the
    first or the last character. *)
Definition stem (name : string) : string :=
  match rfind "." name with
  | Some i =>
      if (0 <? i) && (i <? String.length name - 1)
      then String.substring 0 i name
      else name
  | None => name
  end.

(** The whitespace that [str.strip()] removes: the characters that
    [str.isspace] accepts, by the length of their UTF-8 encoding.
    One byte: U+0009 to U+000D, U+001C to U+0020. *)
Definition space1 (a : ascii) : bool :=
  let n := nat_of_ascii a in
  ((9 <=? n) && (n <=? 13)) || ((28 <=? n) && (n <=? 32)).

(** Two bytes: U+0085 (C2 85) and U+00A0 (C2 A0). *)
Definition space2 (a b : ascii) : bool :=
  (nat_of_ascii a =? 194)
  && ((nat_of_ascii b =? 133) || (nat_of_ascii b =? 160)).

(** Three bytes: U+1680 (E1 9A 80), U+2000 to U+200A (E2 80 80 to
    E2 80 8A), U+2028, U+2029, U+202F (E2 80 A8, A9, AF), U+205F
    (E2 81 9F) and U+3000 (E3 80 80). *)
Definition space3 (a b c : ascii) : bool :=
  let x := nat_of_ascii a in
  let y := nat_of_ascii b in
  let z := nat_of_ascii c in
  ((x =? 225) && (y =? 154) && (z =? 128))
  || ((x =? 226) && (y =? 128)
      && (((128 <=? z) && (z <=? 138)) || (z =? 168) || (z =? 169) || (z =? 175)))
  || ((x =? 226) && (y =? 129) && (z =? 159))
  || ((x =? 227) && (y =? 128) && (z =? 128)).

(** How one, two or three bytes, in the order they are met, make a
    whitespace character: from the start of a text they are met in the
    order of the encoding, from its end in the reverse order. *)
Record side := {
  one : ascii → bool;
  two : ascii → ascii → bool;
  three : ascii → ascii → ascii → bool;
}.

Definition from_start : side :=
  {| one := space1; two := space2; three := space3 |}.

Definition from_end : side :=
  {| one := space1;
     two := λ b a, space2 a b;
     three := λ c b a, space3 a b c |}.

(** The bytes that are left when the whitespace characters met first
    are dropped. *)
Fixpoint drop_space (sd : side) (l : list ascii) : list ascii :=
  match l with
  | [] => []
  | a :: l1 =>
      if one sd a then drop_space sd l1
      else
        match l1 with
        | [] => l
        | b :: l2 =>
            if two sd a b then drop_space sd l2
            else
              match l2 with
              | [] => l
              | c :: l3 => if three sd a b c then drop_space sd l3 else l
              end
        end
  end.

(** Whether the bytes met first make a whitespace character. *)
Definition heads_space (sd : side) (l : list ascii) : bool :=
  match l with
  | [] => false
  | a :: l1 =>
      one sd a
      || match l1 with
         | [] => false
         | b :: l2 =>
             two sd a b
             || match l2 with
                | [] => false
                | c :: _ => three sd a b c
                end
         end
  end.

(** [s.lstrip()], [s.rstrip()] and [s.strip()] *)
Definition lstrip (s : string) : string :=
  string_of_list_ascii (drop_space from_start (list_ascii_of_string s)).

Definition rstrip (s : string) : string :=
  string_of_list_ascii
    (rev (drop_space from_end (rev (list_ascii_of_string s)))).

Definition strip (s : string) : string := rstrip (lstrip s).

(** [sorted(names)]: the order of [str] is the lexicographic order of the
    characters, [String.le]. A list has one sorted rearrangement under this
    order, so the sorting algorithm does not matter; this one is a merge
    sort. *)
Definition sorted (l : list string) : list string := merge_sort String.le l.

(** [l.index(x)], [None] for ValueError *)
Fixpoint index_of (x : string) (l : list string) : option nat :=
  match l with
  | [] => None
  | y :: l' => if String.eqb y x then Some 0 else S <$> index_of x l'
  end.

(** ** Floats, coordinates and tracks *)

Class PyFloat := {
  float : Type;
  (** [f"{x}"], that is [repr(x)] *)
  float_str : float → string;
}.

Section Program.
Context {F : PyFloat}.

(** A coordinate is the two-element list [[lon, lat]]. *)
Definition coord : Type := float * float.

Record GPXTrackPoint := { latitude : float; longitude : float }.
Record GPXTrackSegment := { points : list GPXTrackPoint }.
Record GPXTrack := { segments : list GPXTrackSegment }.
Record GPX := { tracks : list GPXTrack }.

(** The three nested loops of [extract_linestring_from_gpx]. *)
Definition coordinates_of (gpx : GPX) : list coord :=
  flat_map (λ track,
    flat_map (λ segment,
      map (λ point, (longitude point, latitude point)) (points segment))
      (segments track))
    (tracks gpx).

Definition linestring_wkt (coords : list coord) : string :=
  match coords with
  | [] => ""
  | _ =>
      let coord_str :=
        str_join ", "
          (map (λ '(lon, lat), float_str lon +:+ " " +:+ float_str lat) coords) in
      "LINESTRING(" +:+ coord_str +:+ ")"
  end.

(** ** Reading the geometry text back

    The script has no reader of its geometry text. The one below is the
    reader of the round-trip property: it follows the format that the
    specification gives (the [LINESTRING(...)] wrapper, [", "] between
    pairs, [" "] inside a pair) and applies the runtime's [float(text)]
    to each number. *)

Definition is_separator (c : ascii) : bool :=
  Ascii.eqb c " " || Ascii.eqb c "," || Ascii.eqb c ")".

Fixpoint string_forall (p : ascii → bool) (s : string) : bool :=
  match s with
  | EmptyString => true
  | String c s' => p c && string_forall p s'
  end.

(** A number's text holds none of the characters the format adds. *)
Definition plain (s : string) : bool :=
  string_forall (λ c, negb (is_separator c)) s.

(** The text before the first character that [stop] accepts, that
    character and the text after it. *)
Fixpoint take_until (stop : ascii → bool) (s : string)
    : string * option (ascii * string) :=
  match s with
  | EmptyString => (EmptyString, None)
  | String c s' =>
      if stop c then (EmptyString, Some (c, s'))
      else let '(token, after) := take_until stop s' in (String c token, after)
  end.

Fixpoint strip_prefix (prefix s : string) : option string :=
  match prefix, s with
  | EmptyString, _ => Some s
  | String a prefix', String b s' =>
      if Ascii.eqb a b then strip_prefix prefix' s' else None
  | String _ _, EmptyString => None
  end.

Section Reader.
Variable float_of_str : string → option float.

(** The pairs of the text that follows ["LINESTRING("]; every round
    consumes at least three characters of [s], so [String.length s]
    rounds are enough. *)
Fixpoint parse_pairs (rounds : nat) (s : string) : option (list coord) :=
  match rounds with
  | 0 => None
  | S rounds' =>
      match take_until (λ c, Ascii.eqb c " ") s with
      | (lon_text, Some (_, after_lon)) =>
          match take_until (λ c, Ascii.eqb c "," || Ascii.eqb c ")") after_lon with
          | (lat_text, Some (sep, after_lat)) =>
              lon ← float_of_str lon_text;
              lat ← float_of_str lat_text;
              if Ascii.eqb sep ")" then
                match after_lat with
                | EmptyString => Some [(lon, lat)]
                | _ => None
                end
              else
                match after_lat with
                | String " " more =>
                    more_pairs ← parse_pairs rounds' more;
                    Some ((lon, lat) :: more_pairs)
                | _ => None
                end
          | _ => None
          end
      | _ => None
      end
  end.

Definition parse_wkt (wkt : string) : option (list coord) :=
  if String.eqb wkt "" then Some []
  else
    match strip_prefix "LINESTRING(" wkt with
    | Some s => parse_pairs (String.length s) s
    | None => None
    end.

End Reader.

(** ** JSON values and HTTP exchanges *)

(** What [json.loads] returns and [json.dumps] accepts. A dict keeps its
    keys in insertion order; [assoc] reads it. *)
Inductive json :=
  | JNone
  | JBool (b : bool)
  | JInt (n : Z)
  | JFloat (x : float)
  | JStr (s : string)
  | JList (items : list json)
  | JDict (entries : list (string * json)).

Fixpoint assoc {A} (key : string) (entries : list (string * A)) : option A :=
  match entries with
  | [] => None
  | (k, v) :: rest => if String.eqb k key then Some v else assoc key rest
  end.

Inductive method := GET | PATCH.

Record request := {
  verb : method;
  url : string;
  headers : list (string * string);
  body : option json;        (* the [json=] argument *)
}.

Record response := {
  status_code : Z;
  text : string;
  json_body : option json;   (* [resp.json()]; [None] when it raises *)
}.

(** The remote service and the network between: [exchange] answers one
    request from the current state; [None] stands for an exception of the
    transport (no connection, time-out). *)
Class Network := {
  remote : Type;
  exchange : remote → request → option response * remote;
}.

Context {N : Network}.

(** ** Effects *)

Inductive exn :=
  | SystemExit (code : Z)
  | OSError
  | StopIteration
  | GPXException
  | RequestException
  | JSONDecodeError
  | KeyError
  | TypeError
  | AttributeError
  | IndexError.

(** What the run does to the world outside: it scans the track directory,
    reads a track file, exchanges a request for a response, rewrites the
    table. *)
Inductive event :=
  | Scanned (pattern : string)
  | Parsed (name : string)
  | Sent (rq : request) (rs : option response)
  | Saved (header : list string) (rows : list (list string)).

Record machine := { net : remote; log : list event }.

Inductive outcome (A : Type) :=
  | Returned (a : A)
  | Raised (e : exn).
Global Arguments Returned {A} a.
Global Arguments Raised {A} e.

Definition io (A : Type) : Type := machine → outcome A * machine.

Definition ret {A} (a : A) : io A := λ m, (Returned a, m).
Definition raise {A} (e : exn) : io A := λ m, (Raised e, m).
Definition bind {A B} (c : io A) (k : A → io B) : io B :=
  λ m, match c m with
       | (Returned a, m') => k a m'
       | (Raised e, m') => (Raised e, m')
       end.
Definition lift {A} (o : outcome A) : io A := λ m, (o, m).
Definition emit (e : event) : io unit :=
  λ m, (Returned tt, {| net := net m; log := log m ++ [e] |}).

Notation "'let*' x ':=' c 'in' k" := (bind c (λ x, k))
  (at level 10, x name, c at level 100, k at level 200).

(** [sys.exit(code)] raises SystemExit, which [except Exception] lets
    through. *)
Definition sys_exit {A} (code : Z) : io A := raise (SystemExit code).

Definition is_Exception (e : exn) : bool :=
  match e with SystemExit _ => false | _ => true end.

(** [try: body  except Exception as e: handler] *)
Definition try_except {A} (body : io A) (handler : exn → io A) : io A :=
  λ m, match body m with
       | (Raised e, m') =>
           if is_Exception e then handler e m' else (Raised e, m')
       | r => r
       end.

(** ** The record client *)

Definition send (rq : request) : io response :=
  λ m, let '(rs, r') := exchange (net m) rq in
       ( match rs with
         | Some resp => Returned resp
         | None => Raised RequestException
         end,
         {| net := r'; log := log m ++ [Sent rq rs] |} ).

Definition requests_get (u : string) (h : list (string * string)) : io response :=
  send {| verb := GET; url := u; headers := h; body := None |}.

Definition requests_patch (u : string) (h : list (string * string))
    (payload : json) : io response :=
  send {| verb := PATCH; url := u; headers := h; body := Some payload |}.

(** [resp.json()] *)
Definition resp_json (resp : response) : outcome json :=
  match json_body resp with
  | Some j => Returned j
  | None => Raised JSONDecodeError
  end.

(** [obj[key]] for a string key *)
Definition getitem (obj : json) (key : string) : outcome json :=
  match obj with
  | JDict entries =>
      match assoc key entries with
      | Some v => Returned v
      | None => Raised KeyError
      end
  | _ => Raised TypeError
  end.

(** [obj.get(key, default)] *)
Definition dict_get (obj : json) (key : string) (default : json) : outcome json :=
  match obj with
  | JDict entries =>
      Returned (match assoc key entries with Some v => v | None => default end)
  | _ => Raised AttributeError
  end.

Definition record_url (record_id : string) : string :=
  "https://api.fulcrumapp.com/api/v2/records/" +:+ record_id +:+ ".json".

Definition api_headers (api_token : string) : list (string * string) :=
  [ ("Accept", "application/json");
    ("Content-Type", "application/json");
    ("X-ApiToken", api_token) ].

Definition json_coords (coords : list coord) : json :=
  JList (map (λ '(lon, lat), JList [JFloat lon; JFloat lat]) coords).

Definition update_fulcrum_record (record_id : string) (coords : list coord)
    (api_token : string) : io bool :=
  let url := record_url record_id in
  let headers := api_headers api_token in
  let* get_resp := requests_get url headers in
  if bool_decide (status_code get_resp ≠ 200%Z) then ret false
  else
    let* top := lift (resp_json get_resp) in
    let* record_data := lift (getitem top "record") in
    let* form_values := lift (dict_get record_data "form_values" (JDict [])) in
    let payload :=
      JDict [ ("record",
               JDict [ ("form_values", form_values);
                       ("geometry",
                        JDict [ ("type", JStr "LineString");
                                ("coordinates", json_coords coords) ]) ]) ] in
    let* patch_resp := requests_patch url headers payload in
    if bool_decide (status_code patch_resp = 200%Z) then ret true
    else ret false.

(** ** The local files *)

Inductive file (A : Type) :=
  | Absent
  | Unreadable
  | Holds (content : A).
Global Arguments Absent {A}.
Global Arguments Unreadable {A}.
Global Arguments Holds {A} content.

Record disk := {
  (** [gpx_dir.exists() and gpx_dir.is_dir()] *)
  gpx_dir_is_dir : bool;
  (** [data.csv], as [csv.reader] yields its rows *)
  csv_file : file (list (list string));
  (** [.fulcrum_api_token]: the text that [f.read()] returns *)
  token_file : file string;
  (** the names in [garmin-GPX-files], in the order the system lists them *)
  listing : list string;
  (** [gpxpy.parse] of a track file; [None] when opening or parsing raises *)
  gpx_file : string → option GPX;
}.

Definition extract_linestring_from_gpx (d : disk) (gpx_path : string)
    : io (list coord) :=
  let* _ := emit (Parsed gpx_path) in
  match gpx_file d gpx_path with
  | Some gpx => ret (coordinates_of gpx)
  | None => raise GPXException
  end.

Definition read_api_token (d : disk) : io string :=
  match token_file d with
  | Absent => sys_exit 1
  | Unreadable => raise OSError
  | Holds content =>
      let token := strip content in
      if String.eqb token "" then sys_exit 1 else ret token
  end.

(** [gpx_dir.glob("*" + suffix)], matching case-sensitively as on POSIX. *)
Definition glob (d : disk) (suffix : string) : io (list string) :=
  let* _ := emit (Scanned ("*" +:+ suffix)) in
  ret (List.filter (λ name, endswith name suffix) (listing d)).

(** ** The table *)

Definition day_idx : nat := 0.
Definition fulcrum_id_idx : nat := 1.

(** The mapping from the date string to the row index and the fulcrum id. *)
Definition day_to_row_of (rows : list (list string)) : gmap string (nat * string) :=
  foldl (λ day_to_row '(i, row),
           if Nat.max day_idx fulcrum_id_idx <? length row
           then <[ row !!! day_idx := (i, row !!! fulcrum_id_idx) ]> day_to_row
           else day_to_row)
        ∅ (imap (λ i row, (i, row)) rows).

Record table := {
  header : list string;
  rows : list (list string);
  geometry_idx : nat;
  day_to_row : gmap string (nat * string);
}.

(** The body of the [with open(csv_path ...)] block. *)
Definition read_csv (d : disk) : io table :=
  match csv_file d with
  | Absent | Unreadable => raise OSError
  | Holds [] => raise StopIteration
  | Holds (header :: rows) =>
      match index_of "geometry" header with
      | None => sys_exit 1
      | Some geometry_idx =>
          ret {| header := header; rows := rows;
                 geometry_idx := geometry_idx;
                 day_to_row := day_to_row_of rows |}
      end
  end.

(** ** The run *)

(** The loop variables that a track file may change. *)
Definition progress : Type := list (list string) * nat.

(** The body of [for gpx_file in sorted(gpx_files)]. *)
Definition process_file (d : disk) (api_token : string) (t : table)
    (gpx_file : string) (st : progress) : io progress :=
  let '(rows, updated_count) := st in
  let date_str := stem gpx_file in
  match day_to_row t !! date_str with
  | None => ret st
  | Some (row_idx, fulcrum_id) =>
      if String.eqb fulcrum_id "" then ret st
      else
        try_except
          (let* coords := extract_linestring_from_gpx d gpx_file in
           match coords with
           | [] => ret st
           | _ =>
               let* updated := update_fulcrum_record fulcrum_id coords api_token in
               if updated then
                 let wkt_geom := linestring_wkt coords in
                 match rows !! row_idx with
                 | None => raise IndexError
                 | Some row =>
                     let rows' :=
                       if geometry_idx t <? length row
                       then <[ row_idx := <[ geometry_idx t := wkt_geom ]> row ]> rows
                       else rows in
                     ret (rows', S updated_count)
                 end
               else ret st
           end)
          (λ _, ret st)
  end.

Fixpoint for_each {A S} (step : A → S → io S) (items : list A) (s : S) : io S :=
  match items with
  | [] => ret s
  | x :: rest => let* s' := step x s in for_each step rest s'
  end.

(** The candidate track files, in the order the loop visits them:
    [sorted(list(glob("*.gpx")) + list(glob("*.GPX")))]. *)
Definition candidates (names : list string) : list string :=
  sorted (List.filter (λ name, endswith name ".gpx") names
          ++ List.filter (λ name, endswith name ".GPX") names).

(** The part of [main] from [# Process GPX files] to its end. *)
Definition process_gpx_files (d : disk) (api_token : string) (t : table)
    : io unit :=
  let* lower := glob d ".gpx" in
  let* upper := glob d ".GPX" in
  let gpx_files := lower ++ upper in
  match gpx_files with
  | [] => ret tt
  | _ =>
      let* st := for_each (process_file d api_token t) (sorted gpx_files)
                          (rows t, 0) in
      if 0 <? st.2 then emit (Saved (header t) st.1) else ret tt
  end.

Definition main (d : disk) : io unit :=
  if negb (gpx_dir_is_dir d) then sys_exit 1
  else if (match csv_file d with Absent => true | _ => false end) then sys_exit 1
  else
    let* api_token := try_except (read_api_token d) (λ _, sys_exit 1) in
    let* t := try_except (read_csv d) (λ _, sys_exit 1) in
    process_gpx_files d api_token t.

(** The exit status of the process: 0 when [main] returns, the code of
    [sys.exit], 1 for an exception that nothing catches. *)
Definition exit_status {A} (o : outcome A) : Z :=
  match o with
  | Returned _ => 0
  | Raised (SystemExit code) => code
  | Raised _ => 1
  end.

(** The machine as [main] finds it. *)
Definition boot (r : remote) : machine := {| net := r; log := [] |}.

(** One invocation of the script: its exit status and what it did. *)
Definition run (d : disk) (r : remote) : Z * list event :=
  let '(o, m) := main d (boot r) in
  (exit_status o, log m).

(** ** Vocabulary of the properties *)

(** One coordinate as the geometry text shows it. *)
Definition pair_text (c : coord) : string :=
  float_str c.1 +:+ " " +:+ float_str c.2.

(** The coordinates after the first: each preceded by [", "]. *)
Fixpoint following (rest : list coord) : string :=
  match rest with
  | [] => ""
  | c :: rest' => ", " +:+ pair_text c +:+ following rest'
  end.

(** The fetch of a record. *)
Definition fetch_request (record_id api_token : string) : request :=
  {| verb := GET; url := record_url record_id;
     headers := api_headers api_token; body := None |}.

(** The replacement document: the given form values and a LineString. *)
Definition replacement (form_values : json) (coords : list coord) : json :=
  JDict [ ("record",
           JDict [ ("form_values", form_values);
                   ("geometry",
                    JDict [ ("type", JStr "LineString");
                            ("coordinates", json_coords coords) ]) ]) ].

Definition update_request (record_id api_token : string) (form_values : json)
    (coords : list coord) : request :=
  {| verb := PATCH; url := record_url record_id;
     headers := api_headers api_token;
     body := Some (replacement form_values coords) |}.

(** The form values a fetch brought back: the answer has status 200 and
    its JSON is an object whose ["record"] is an object; its
    ["form_values"], or the empty object when it has none. *)
Definition fetched_form_values (answer : option response) : option json :=
  match answer with
  | Some resp =>
      if bool_decide (status_code resp = 200%Z) then
        match json_body resp with
        | Some (JDict top) =>
            match assoc "record" top with
            | Some (JDict record) =>
                Some (match assoc "form_values" record with
                      | Some v => v
                      | None => JDict []
                      end)
            | _ => None
            end
        | _ => None
        end
      else None
  | None => None
  end.

(** An outcome other than [True]: [False], or an exception that
    [except Exception] catches. *)
Definition failed (o : outcome bool) : Prop :=
  match o with
  | Returned updated => updated = false
  | Raised e => is_Exception e = true
  end.

(** The answer has status 200. *)
Definition accepted (answer : option response) : Prop :=
  ∃ resp, answer = Some resp ∧ status_code resp = 200%Z.

(** The answer has a status, and it is not 200. *)
Definition refused (answer : option response) : Prop :=
  ∃ resp, answer = Some resp ∧ status_code resp ≠ 200%Z.

(** The requests of a log, in order. *)
Definition requests_of (evs : list event) : list request :=
  omap (λ e, match e with Sent rq _ => Some rq | _ => None end) evs.

(** No request of the log carries an empty geometry. *)
Definition no_empty_geometry (evs : list event) : Prop :=
  ∀ rq rs fv, Sent rq rs ∈ evs → body rq ≠ Some (replacement fv []).

(** The start of [main] succeeds: the directory, the token and the table
    are there, and [t] is the table as read. *)
Definition ready (d : disk) (api_token : string) (t : table) : Prop :=
  gpx_dir_is_dir d = true
  ∧ (∃ content, token_file d = Holds content ∧ strip content = api_token)
  ∧ api_token ≠ ""
  ∧ csv_file d = Holds (header t :: rows t)
  ∧ index_of "geometry" (header t) = Some (geometry_idx t)
  ∧ day_to_row t = day_to_row_of (rows t).

(** The machine after the track file [f] is opened. *)
Definition opened (f : string) (m : machine) : machine :=
  {| net := net m; log := log m ++ [Parsed f] |}.

(** The table after the geometry text of [coords] is written in row
    [i], as the script writes it: only where the row has the cell. *)
Definition written (t : table) (i : nat) (coords : list coord)
    (rows : list (list string)) : list (list string) :=
  match rows !! i with
  | Some row =>
      if geometry_idx t <? length row
      then <[ i := <[ geometry_idx t := linestring_wkt coords ]> row ]> rows
      else rows
  | None => rows
  end.

(** The machine after the two scans of the track directory. *)
Definition scanned (m : machine) : machine :=
  {| net := net m; log := log m ++ [Scanned "*.gpx"; Scanned "*.GPX"] |}.

End Program.

(** The case-insensitive reading of a track extension: the name, in
    lower case, ends in [.gpx]. *)
Definition ascii_lower (c : ascii) : ascii :=
  let n := nat_of_ascii c in
  if (65 <=? n) && (n <=? 90) then ascii_of_nat (n + 32) else c.

Fixpoint str_lower (s : string) : string :=
  match s with
  | EmptyString => EmptyString
  | String c s' => String (ascii_lower c) (str_lower s')
  end.

Definition has_track_extension (name : string) : bool :=
  endswith (str_lower name) ".gpx".

(** ** Further vocabulary *)

(** Whether a text starts, or ends, with a whitespace character. *)
Definition starts_with_space (s : string) : bool :=
  heads_space from_start (list_ascii_of_string s).

Definition ends_with_space (s : string) : bool :=
  heads_space from_end (rev (list_ascii_of_string s)).

Section MoreVocabulary.
Context {F : PyFloat} {N : Network}.

(** The runtime reads the number back from its own text, and that text
    holds no blank, comma or closing parenthesis. *)
Definition reads_back (float_of_str : string → option float) (x : float) : Prop :=
  float_of_str (float_str x) = Some x ∧ plain (float_str x) = true.

(** Every number of the coordinates reads back. *)
Definition all_read_back (float_of_str : string → option float)
    (coords : list coord) : Prop :=
  Forall (λ c, reads_back float_of_str c.1 ∧ reads_back float_of_str c.2) coords.

(** The points of a track file in file order: track by track, segment
    by segment. *)
Definition all_points (gpx : GPX) : list GPXTrackPoint :=
  concat (map points (concat (map segments (tracks gpx)))).

(** An update that the remote answered with status 200. *)
Definition is_accepted_update (ev : event) : bool :=
  match ev with
  | Sent rq answer =>
      match verb rq, answer with
      | PATCH, Some resp => bool_decide (status_code resp = 200%Z)
      | _, _ => false
      end
  | _ => false
  end.

Definition accepted_updates (evs : list event) : nat :=
  length (List.filter is_accepted_update evs).

Definition is_save (ev : event) : bool :=
  match ev with Saved _ _ => true | _ => false end.

(** What one track file may add to the log: nothing; the reading of the
    file; the reading and a fetch that brings no record; the reading, a
    fetch that brings a record and the update with its form values. *)
Definition file_segment (tok : string) (t : table) (f : string)
    (seg : list event) : Prop :=
  seg = []
  ∨ seg = [Parsed f]
  ∨ ∃ i id a,
      day_to_row t !! stem f = Some (i, id) ∧ id ≠ ""
      ∧ (fetched_form_values a = None
         ∧ seg = [Parsed f; Sent (fetch_request id tok) a]
         ∨ ∃ fv coords b,
             fetched_form_values a = Some fv ∧ coords ≠ []
             ∧ seg = [Parsed f; Sent (fetch_request id tok) a;
                      Sent (update_request id tok fv coords) b]).

(** The table [tbl] is the table [tbl0] but for cells of column [g]: the
    same number of rows, each of the same length, with the same cells
    outside column [g]. *)
Definition unchanged_but_column (g : nat) (tbl0 tbl : list (list string)) : Prop :=
  Forall2 (λ row0 row,
             length row = length row0
             ∧ ∀ j, j ≠ g → row !! j = row0 !! j) tbl0 tbl.

End MoreVocabulary.

(** ** Sample data

    Whole-number floats written in decimal, a remote that answers from a
    script, a table and a few track files: the inputs at which the
    properties are evaluated. *)

Module Sample.

Definition decimal (z : Z) : string := NilZero.string_of_int (Z.to_int z).

Definition read_decimal (s : string) : option Z :=
  Z.of_int <$> NilZero.int_of_string s.

#[export] Instance whole : PyFloat := {| float := Z; float_str := decimal |}.

(** The remote answers the next request with the next entry of its
    script, whatever the request; past the end the transport fails. *)
#[export] Instance scripted : Network := {|
  remote := list (option response);
  exchange := λ script _,
    match script with
    | [] => (None, [])
    | answer :: rest => (answer, rest)
    end;
|}.

(** The remote that will give these answers. *)
Definition answering (script : list (option response)) : remote := script.

Definition point (lon lat : Z) : GPXTrackPoint :=
  {| latitude := lat; longitude := lon |}.

(** A track of two segments, three points. *)
Definition walk : GPX :=
  {| tracks :=
       [ {| segments := [ {| points := [point 10 50; point 11 51] |};
                          {| points := [point (-12) 52] |} ] |} ] |}.

(** A track of one point. *)
Definition stroll : GPX :=
  {| tracks := [ {| segments := [ {| points := [point 7 46] |} ] |} ] |}.

(** A track file without points. *)
Definition still : GPX := {| tracks := [ {| segments := [] |} ] |}.

Definition files (name : string) : option GPX :=
  if String.eqb name "2024-05-01.gpx" then Some walk
  else if String.eqb name "2024-05-01.GPX" then Some stroll
  else if String.eqb name "2024-05-02.gpx" then Some walk
  else if String.eqb name "2024-05-03.gpx" then Some stroll
  else if String.eqb name "2024-05-04.gpx" then Some walk
  else if String.eqb name "2024-05-05.gpx" then Some still
  else None.

Definition columns : list string := ["day"; "fulcrum_id"; "notes"; "geometry"].

(** The third row has no fulcrum id; the fourth stops after its id. *)
Definition entries : list (list string) :=
  [ ["2024-05-01"; "rec-1"; "walk"; ""];
    ["2024-05-05"; "rec-5"; "rest"; ""];
    ["2024-05-02"; ""; "home"; ""];
    ["2024-05-03"; "rec-3"] ].

Definition sheet : table :=
  {| header := columns; rows := entries; geometry_idx := 3;
     day_to_row := day_to_row_of entries |}.

(** The directory holds the files [names]. *)
Definition folder (names : list string) : disk :=
  {| gpx_dir_is_dir := true;
     csv_file := Holds (columns :: entries);
     token_file := Holds " secret ";
     listing := names;
     gpx_file := files |}.

(** The same, the credential file holding only blanks. *)
Definition folder_without_token : disk :=
  {| gpx_dir_is_dir := true;
     csv_file := Holds (columns :: entries);
     token_file := Holds "  ";
     listing := ["2024-05-01.gpx"];
     gpx_file := files |}.

Definition found : response :=
  {| status_code := 200; text := "record";
     json_body :=
       Some (JDict [ ("record",
                      JDict [ ("id", JStr "rec-1");
                              ("form_values", JDict [("a1b2", JStr "walk")]);
                              ("geometry", JNone) ]) ]) |}.

Definition replaced : response :=
  {| status_code := 200; text := "record"; json_body := None |}.

Definition not_found : response :=
  {| status_code := 404; text := "Not Found"; json_body := None |}.

Definition kept : json := JDict [("a1b2", JStr "walk")].

(** Rows that share their first cell. *)
Definition repeated : list (list string) :=
  [ ["2024-05-01"; "rec-1"]; ["2024-05-01"; "rec-9"]; ["2024-05-01"] ].

Definition shadowed : list (list string) :=
  [ ["2024-05-01"; "rec-1"]; ["2024-05-01"] ].

End Sample.

(** A directory whose track file cannot be parsed. *)
Module Faulty.

Definition folder : @disk Sample.whole :=
  {| gpx_dir_is_dir := true;
     csv_file := Holds (Sample.columns :: Sample.entries);
     token_file := Holds " secret ";
     listing := ["2024-05-01.gpx"];
     gpx_file := λ _, None |}.

End Faulty.

(** Floats with the values that are not numbers. The whole-valued floats
    are written with [.0], as [repr] writes them below 1e16; a NaN
    carries its sign bit ([float('nan')], [float('-nan')]), and [repr]
    writes [nan] whatever the sign. *)
Module Ieee.

Inductive number :=
  | Whole (z : Z)
  | NaN (negative : bool).

Definition number_str (x : number) : string :=
  match x with
  | Whole z => Sample.decimal z +:+ ".0"
  | NaN _ => "nan"
  end.

Definition floats : PyFloat := {| float := number; float_str := number_str |}.

(** [float(s)] on the texts above and on [-nan]. *)
Definition number_of_str (s : string) : option number :=
  if String.eqb s "nan" then Some (NaN false)
  else if String.eqb s "-nan" then Some (NaN true)
  else
    match take_until (λ c, Ascii.eqb c ".") s with
    | (digits, Some (_, cents)) =>
        if String.eqb cents "0" then Whole <$> Sample.read_decimal digits
        else None
    | (_, None) => None
    end.

Definition track : list (@coord floats) :=
  [(Whole 10, Whole 50); (Whole (-12), Whole 52)].

(** One point whose longitude is not a number, with either sign. *)
Definition plus : list (@coord floats) := [(NaN false, Whole 0)].

Definition minus : list (@coord floats) := [(NaN true, Whole 0)].

End Ieee.

(** * Properties *)

(** ** Strings *)

Lemma str_app_nil_l (b : string) : "" +:+ b = b.
Proof. reflexivity. Qed.

Lemma str_app_cons (x : ascii) (a b : string) : String x a +:+ b = String x (a +:+ b).
Proof. reflexivity. Qed.

Lemma str_app_nil_r (a : string) : a +:+ "" = a.
Proof. induction a as [|x a IH]; [done | by rewrite str_app_cons, IH]. Qed.

Lemma str_app_assoc (a b c : string) : (a +:+ b) +:+ c = a +:+ (b +:+ c).
Proof. induction a as [|x a IH]; [done | by rewrite !str_app_cons, IH]. Qed.

Lemma str_length_app (a b : string) :
  String.length (a +:+ b) = String.length a + String.length b.
Proof. induction a as [|x a IH]; [done | rewrite str_app_cons; simpl; by rewrite IH]. Qed.

(** ** The geometry formatter *)

Section Formatter.
Context {F : PyFloat}.

Lemma str_join_cons sep p ps :
  str_join sep (p :: ps) = p +:+ match ps with [] => "" | _ => sep +:+ str_join sep ps end.
Proof. destruct ps; simpl; [| done]. by rewrite str_app_nil_r. Qed.

Lemma str_join_pairs c rest :
  str_join ", " (map (λ '(lon, lat), float_str lon +:+ " " +:+ float_str lat) (c :: rest))
  = pair_text c +:+ following rest.
Proof.
  revert c. induction rest as [|d rest IH]; intros [lon lat].
  - cbn [map following]. rewrite str_join_cons, !str_app_nil_r. done.
  - change (map ?f ((lon, lat) :: ?l)) with (f (lon, lat) :: map f l).
    rewrite str_join_cons. cbn [following].
    change (map ?f (d :: rest)) with (f d :: map f rest) at 1.
    cbv beta iota. rewrite IH. unfold pair_text at 2. cbn [fst snd].
    by rewrite !str_app_assoc.
Qed.

Lemma linestring_wkt_cons c rest :
  linestring_wkt (c :: rest) = "LINESTRING(" +:+ pair_text c +:+ following rest +:+ ")".
Proof.
  unfold linestring_wkt. rewrite str_join_pairs. by rewrite !str_app_assoc.
Qed.

(** C3. The geometry text of no coordinates is the empty string; the
    text of the coordinates [c :: rest] is ["LINESTRING("], the pair of
    [c] as ["<lon> <lat>"], each further pair preceded by [", "], and
    [")"]; no coordinates give the text ["LINESTRING()"]. The formatter
    is a total function of the coordinates alone. *)
Theorem linestring_wkt_format (c : coord) (rest coords : list coord) :
  linestring_wkt [] = ""
  ∧ linestring_wkt (c :: rest)
    = "LINESTRING(" +:+ pair_text c +:+ following rest +:+ ")"
  ∧ linestring_wkt coords ≠ "LINESTRING()".
Proof.
  split; [done|]. split; [apply linestring_wkt_cons|].
  destruct coords as [|[lon lat] more]; [done|].
  rewrite linestring_wkt_cons. intros E.
  apply (f_equal String.length) in E.
  rewrite !str_length_app in E. unfold pair_text in E. rewrite !str_length_app in E.
  simpl in E. lia.
Qed.

Lemma string_forall_impl (p q : ascii → bool) s :
  (∀ c, p c = true → q c = true) →
  string_forall p s = true → string_forall q s = true.
Proof.
  intros Hpq. induction s as [|c s IH]; [done|]. simpl.
  rewrite !andb_true_iff. intros [? ?]. auto.
Qed.

Lemma take_until_app stop token c rest :
  string_forall (λ x, negb (stop x)) token = true →
  stop c = true →
  take_until stop (token +:+ String c rest) = (token, Some (c, rest)).
Proof.
  intros Htok Hc. induction token as [|x token IH].
  - rewrite str_app_nil_l. simpl. by rewrite Hc.
  - simpl in Htok. apply andb_true_iff in Htok as [Hx Htok].
    rewrite str_app_cons. simpl. apply negb_true_iff in Hx. rewrite Hx.
    by rewrite (IH Htok).
Qed.

Lemma following_length rest : length rest ≤ String.length (following rest).
Proof.
  induction rest as [|c rest IH]; [done|]. cbn [following].
  rewrite !str_length_app. simpl. lia.
Qed.

Section RoundTrip.
Variable float_of_str : string → option float.

Lemma no_space x :
  plain (float_str x) = true →
  string_forall (λ c, negb (Ascii.eqb c " ")) (float_str x) = true.
Proof.
  intros Hx. eapply string_forall_impl; [|apply Hx].
  intros c. unfold is_separator. destruct (Ascii.eqb c " "); done.
Qed.

Lemma no_comma_paren x :
  plain (float_str x) = true →
  string_forall (λ c, negb (Ascii.eqb c "," || Ascii.eqb c ")")) (float_str x) = true.
Proof.
  intros Hx. eapply string_forall_impl; [|apply Hx].
  intros c. unfold is_separator.
  destruct (Ascii.eqb c " "), (Ascii.eqb c ","), (Ascii.eqb c ")"); done.
Qed.

Lemma parse_pairs_following c rest rounds :
  all_read_back float_of_str (c :: rest) →
  length rest < rounds →
  parse_pairs float_of_str rounds (pair_text c +:+ following rest +:+ ")")
  = Some (c :: rest).
Proof.
  revert c rounds.
  induction rest as [|d rest IH]; intros [lon lat] rounds Hb Hr;
    (destruct rounds as [|rounds]; [simpl in Hr; lia|]);
    apply Forall_cons_1 in Hb as [[[Hlon Plon] [Hlat Plat]] Hb];
    cbn [fst snd] in Hlon, Plon, Hlat, Plat;
    unfold pair_text; cbn [fst snd following parse_pairs];
    rewrite !str_app_assoc; rewrite !str_app_cons, !str_app_nil_l;
    rewrite (take_until_app _ (float_str lon)) by (by apply no_space || done).
  - rewrite (take_until_app _ (float_str lat)) by (by apply no_comma_paren || done).
    rewrite Hlon, Hlat. done.
  - rewrite (take_until_app _ (float_str lat)) by (by apply no_comma_paren || done).
    rewrite Hlon, Hlat. cbn.
    rewrite (IH d rounds) by (done || (simpl in Hr; lia)). done.
Qed.

Lemma parse_wkt_linestring_wkt (coords : list coord) :
  all_read_back float_of_str coords →
  parse_wkt float_of_str (linestring_wkt coords) = Some coords.
Proof.
  intros Hb. destruct coords as [|c rest]; [done|].
  rewrite linestring_wkt_cons. unfold parse_wkt.
  rewrite !str_app_cons, str_app_nil_l. cbn [String.eqb strip_prefix Ascii.eqb].
  simpl. apply parse_pairs_following; [done|].
  rewrite !str_length_app. pose proof (following_length rest).
  change (String.length ")") with 1. lia.
Qed.

(** C4. For coordinates whose numbers the runtime reads back from their
    own text, a text without blank, comma or closing parenthesis:
    reading back the geometry text gives these coordinates, in order;
    and among such sequences, two with the same text are the same
    sequence. The numbers that do not read back are left out: the
    statement says nothing of them. *)
Theorem wkt_round_trip (coords : list coord) :
  all_read_back float_of_str coords →
  parse_wkt float_of_str (linestring_wkt coords) = Some coords
  ∧ ∀ coords', all_read_back float_of_str coords' →
      linestring_wkt coords' = linestring_wkt coords → coords' = coords.
Proof.
  intros Hb. split; [by apply parse_wkt_linestring_wkt|].
  intros coords' Hb' E.
  pose proof (parse_wkt_linestring_wkt coords' Hb') as E'. rewrite E in E'.
  rewrite parse_wkt_linestring_wkt in E' by done. by injection E' as ->.
Qed.
End RoundTrip.
End Formatter.

(** ** The record client *)

Section Client.
Context {F : PyFloat} {N : Network}.

Lemma update_fulcrum_record_fetched record_id coords api_token m form_values :
  let fetch := fetch_request record_id api_token in
  let update := update_request record_id api_token form_values coords in
  let a := exchange (net m) fetch in
  let b := exchange a.2 update in
  fetched_form_values a.1 = Some form_values →
  update_fulcrum_record record_id coords api_token m
  = ( match b.1 with
      | Some resp => Returned (bool_decide (status_code resp = 200%Z))
      | None => Raised RequestException
      end,
      {| net := b.2; log := log m ++ [Sent fetch a.1; Sent update b.1] |} ).
Proof.
  intros fetch update a b Hfv. subst a b.
  unfold update_fulcrum_record, requests_get, requests_patch, bind, send, lift, ret.
  change (Build_request GET _ _ None) with fetch.
  destruct (exchange (net m) fetch) as [answer r1] eqn:Ea. cbn [fst snd] in *.
  destruct answer as [resp|]; [|done]. cbn [fetched_form_values] in Hfv.
  case_bool_decide as Hs; [|done].
  rewrite bool_decide_false by (intros ?; done).
  unfold resp_json. destruct (json_body resp) as [[| | | | | |top]|]; try done.
  cbn [getitem]. destruct (assoc "record" top) as [[| | | | | |record]|]; try done.
  cbn [dict_get net log]. injection Hfv as <-.
  change (Build_request PATCH _ _ _) with update. destruct (exchange r1 update) as [[resp2|] r2]; cbn [fst snd].
  - rewrite <- List.app_assoc. by case_bool_decide.
  - by rewrite <- List.app_assoc.
Qed.

Lemma update_fulcrum_record_not_fetched record_id coords api_token m :
  let fetch := fetch_request record_id api_token in
  let a := exchange (net m) fetch in
  fetched_form_values a.1 = None →
  ∃ o, update_fulcrum_record record_id coords api_token m
       = (o, {| net := a.2; log := log m ++ [Sent fetch a.1] |})
       ∧ failed o.
Proof.
  intros fetch a Hfv. subst a.
  unfold update_fulcrum_record, requests_get, requests_patch, bind, send, lift, ret.
  change (Build_request GET _ _ None) with fetch.
  destruct (exchange (net m) fetch) as [answer r1] eqn:Ea. cbn [fst snd] in *.
  destruct answer as [resp|]; [|by eexists]. cbn [fetched_form_values] in Hfv.
  case_bool_decide as Hs.
  - rewrite bool_decide_false by (intros ?; done).
    unfold resp_json.
    destruct (json_body resp) as [[| | | | | |top]|];
      try (eexists; split; [reflexivity|done]).
    cbn [getitem].
    destruct (assoc "record" top) as [[| | | | | |record]|];
      first [done | eexists; split; [reflexivity|done]].
  - rewrite bool_decide_true by done. eexists; split; [reflexivity|done].
Qed.

(** C1, as amended. The update operation first sends the fetch of the
    record. When the fetch brings a record back (status 200 and a JSON
    object whose ["record"] is an object), it then sends one
    replacement: the form values of the fetched record as they are (the
    empty object when the record has none), and a geometry of type
    LineString with the given [lon, lat] pairs in their order. When the
    fetch brings no record back, nothing more is sent. *)
Theorem update_fetches_then_replaces record_id coords api_token m :
  let fetch := fetch_request record_id api_token in
  let a := exchange (net m) fetch in
  let after := (update_fulcrum_record record_id coords api_token m).2 in
  match fetched_form_values a.1 with
  | Some form_values =>
      let update := update_request record_id api_token form_values coords in
      let b := exchange a.2 update in
      after = {| net := b.2; log := log m ++ [Sent fetch a.1; Sent update b.1] |}
  | None =>
      after = {| net := a.2; log := log m ++ [Sent fetch a.1] |}
  end.
Proof.
  intros fetch a after. subst after.
  destruct (fetched_form_values a.1) as [fv|] eqn:Hfv.
  - intros update b. by rewrite (update_fulcrum_record_fetched _ _ _ _ fv).
  - destruct (update_fulcrum_record_not_fetched record_id coords api_token m Hfv)
      as (o & -> & _). done.
Qed.
End Client.

(** ** One track file *)

Section Loop.
Context {F : PyFloat} {N : Network}.
Implicit Types (d : disk) (t : table) (m : machine) (st : progress).

Lemma process_file_unmatched d tok t f st m :
  day_to_row t !! stem f = None →
  process_file d tok t f st m = (Returned st, m).
Proof. intros H. unfold process_file. destruct st. by rewrite H. Qed.

Lemma process_file_no_id d tok t f st m i :
  day_to_row t !! stem f = Some (i, "") →
  process_file d tok t f st m = (Returned st, m).
Proof. intros H. unfold process_file. destruct st. by rewrite H. Qed.

Lemma process_file_unparsed d tok t f st m i id :
  day_to_row t !! stem f = Some (i, id) → id ≠ "" →
  gpx_file d f = None →
  process_file d tok t f st m = (Returned st, opened f m).
Proof.
  intros H Hid Hg. unfold process_file. destruct st. rewrite H.
  apply String.eqb_neq in Hid. rewrite Hid.
  unfold try_except, extract_linestring_from_gpx, bind, emit, raise, ret.
  by rewrite Hg.
Qed.

Lemma process_file_empty d tok t f st m i id gpx :
  day_to_row t !! stem f = Some (i, id) → id ≠ "" →
  gpx_file d f = Some gpx → coordinates_of gpx = [] →
  process_file d tok t f st m = (Returned st, opened f m).
Proof.
  intros H Hid Hg Hc. unfold process_file. destruct st. rewrite H.
  apply String.eqb_neq in Hid. rewrite Hid.
  unfold try_except, extract_linestring_from_gpx, bind, emit, raise, ret.
  by rewrite Hg, Hc.
Qed.

Lemma process_file_remote d tok t f rows n m i id gpx :
  day_to_row t !! stem f = Some (i, id) → id ≠ "" →
  gpx_file d f = Some gpx → coordinates_of gpx ≠ [] →
  process_file d tok t f (rows, n) m
  = let '(o, m') := update_fulcrum_record id (coordinates_of gpx) tok (opened f m) in
    ( Returned match o with
               | Returned true =>
                   match rows !! i with
                   | Some _ => (written t i (coordinates_of gpx) rows, S n)
                   | None => (rows, n)
                   end
               | _ => (rows, n)
               end,
      m' ).
Proof.
  intros H Hid Hg Hc. unfold process_file. rewrite H.
  apply String.eqb_neq in Hid. rewrite Hid.
  unfold try_except, extract_linestring_from_gpx, bind, emit, raise, ret.
  rewrite Hg. fold (opened f m).
  destruct (coordinates_of gpx) as [|c cs] eqn:Ec; [done|].
  destruct (update_fulcrum_record id (c :: cs) tok (opened f m)) as [o m'] eqn:Eu.
  destruct o as [[|]|e].
  - unfold written. destruct (rows !! i) as [row|]; [|done]. done.
  - done.
  - assert (is_Exception e = true) as ->; [|done].
    pose proof (update_fulcrum_record_fetched id (c :: cs) tok (opened f m)) as Hf.
    pose proof (update_fulcrum_record_not_fetched id (c :: cs) tok (opened f m)) as Hn.
    cbv zeta in Hf, Hn.
    destruct (fetched_form_values (exchange (net (opened f m)) (fetch_request id tok)).1) as [fv|].
    + rewrite (Hf fv eq_refl) in Eu.
      destruct ((exchange _ (update_request id tok fv (c :: cs))).1); by simplify_eq.
    + destruct (Hn eq_refl) as (o & Eo & Ho). rewrite Eo in Eu. by simplify_eq.
Qed.

(** What a track file adds to the log: its opening, then the fetch, then
    the update. *)
Lemma process_file_log d tok t f rows n m :
  ∃ st' r' evs,
    process_file d tok t f (rows, n) m
    = (Returned st', {| net := r'; log := log m ++ evs |})
    ∧ (evs = [] ∧ r' = net m ∧ st' = (rows, n)
       ∨ evs = [Parsed f] ∧ r' = net m ∧ st' = (rows, n)
       ∨ ∃ i id gpx,
           day_to_row t !! stem f = Some (i, id) ∧ id ≠ ""
           ∧ gpx_file d f = Some gpx ∧ coordinates_of gpx ≠ []
           ∧ let coords := coordinates_of gpx in
             let fetch := fetch_request id tok in
             let a := exchange (net m) fetch in
             match fetched_form_values a.1 with
             | None =>
                 evs = [Parsed f; Sent fetch a.1] ∧ r' = a.2 ∧ st' = (rows, n)
             | Some fv =>
                 let update := update_request id tok fv coords in
                 let b := exchange a.2 update in
                 evs = [Parsed f; Sent fetch a.1; Sent update b.1] ∧ r' = b.2
                 ∧ st' = match b.1 with
                         | Some resp =>
                             if bool_decide (status_code resp = 200%Z)
                             then match rows !! i with
                                  | Some _ => (written t i coords rows, S n)
                                  | None => (rows, n)
                                  end
                             else (rows, n)
                         | None => (rows, n)
                         end
             end).
Proof.
  destruct m as [r evs0].
  destruct (day_to_row t !! stem f) as [[i id]|] eqn:Hl.
  2:{ exists (rows, n), r, []. rewrite process_file_unmatched by done.
      rewrite app_nil_r. auto. }
  destruct (decide (id = "")) as [->|Hid].
  { exists (rows, n), r, []. rewrite (process_file_no_id _ _ _ _ _ _ i) by done.
    rewrite app_nil_r. auto. }
  destruct (gpx_file d f) as [gpx|] eqn:Hg.
  2:{ exists (rows, n), r, [Parsed f].
      rewrite (process_file_unparsed _ _ _ _ _ _ i id) by done.
      split; [reflexivity | auto]. }
  destruct (decide (coordinates_of gpx = [])) as [Hc|Hc].
  { exists (rows, n), r, [Parsed f].
    rewrite (process_file_empty _ _ _ _ _ _ i id gpx) by done.
    split; [reflexivity | auto]. }
  rewrite (process_file_remote _ _ _ _ _ _ _ i id gpx) by done.
  pose proof (update_fulcrum_record_fetched id (coordinates_of gpx) tok
                (opened f {| net := r; log := evs0 |})) as Hf.
  pose proof (update_fulcrum_record_not_fetched id (coordinates_of gpx) tok
                (opened f {| net := r; log := evs0 |})) as Hn.
  cbv zeta in Hf, Hn. cbn [opened net log] in Hf, Hn.
  destruct (fetched_form_values (exchange r (fetch_request id tok)).1)
    as [fv|] eqn:Hfv.
  - rewrite (Hf fv eq_refl). eexists _, _, _. split.
    { rewrite <- app_assoc. reflexivity. }
    right; right. exists i, id, gpx. repeat split; try done.
    cbv zeta. cbn [net]. rewrite Hfv. repeat split.
    destruct ((exchange _ (update_request id tok fv (coordinates_of gpx))).1)
      as [resp|]; [|done].
    by case_bool_decide.
  - destruct (Hn eq_refl) as (o & -> & Ho). eexists _, _, _. split.
    { rewrite <- app_assoc. reflexivity. }
    right; right. exists i, id, gpx. repeat split; try done.
    cbv zeta. cbn [net]. rewrite Hfv. repeat split.
    destruct o as [[|]|e]; done.
Qed.
End Loop.

(** ** The table *)

Lemma day_to_row_of_snoc (rows : list (list string)) (row : list string) :
  day_to_row_of (rows ++ [row])
  = if 1 <? length row
    then <[ row !!! 0 := (length rows, row !!! 1) ]> (day_to_row_of rows)
    else day_to_row_of rows.
Proof.
  unfold day_to_row_of. rewrite imap_app, foldl_app. cbn [imap foldl].
  rewrite Nat.add_0_r. done.
Qed.

(** An entry of the lookup comes from a row of at least two cells: its
    position, its first cell and its second. *)
Lemma day_to_row_of_entry (rows : list (list string)) key i id :
  day_to_row_of rows !! key = Some (i, id) →
  ∃ row, rows !! i = Some row ∧ row !! 0 = Some key ∧ row !! 1 = Some id.
Proof.
  induction rows as [|row rows IH] using rev_ind; [done|].
  rewrite day_to_row_of_snoc.
  destruct (Nat.ltb_spec 1 (length row)) as [Hlen|Hlen].
  - destruct row as [|c0 [|c1 row]]; [simpl in Hlen; lia..|].
    change ((c0 :: c1 :: row) !!! 0) with c0.
    change ((c0 :: c1 :: row) !!! 1) with c1.
    destruct (decide (c0 = key)) as [->|Hne].
    + rewrite lookup_insert_eq. intros [= <- <-].
      exists (key :: c1 :: row). rewrite lookup_app_r, Nat.sub_diag by done. done.
    + rewrite lookup_insert_ne by done. intros H.
      destruct (IH H) as (row' & Hr & ? & ?). exists row'.
      by rewrite lookup_app_l by (by eapply lookup_lt_Some).
  - intros H. destruct (IH H) as (row' & Hr & ? & ?). exists row'.
    by rewrite lookup_app_l by (by eapply lookup_lt_Some).
Qed.

(** C8, as amended. Among the rows with at least two cells, the last one
    whose first cell is the key gives the lookup entry: its position and
    its second cell. Rows with fewer than two cells are not entered and
    shadow nothing. *)
Theorem last_full_row_wins (rows : list (list string)) i row key id :
  rows !! i = Some row →
  row !! 0 = Some key →
  row !! 1 = Some id →
  (∀ j later, i < j → rows !! j = Some later → 1 < length later →
              later !! 0 ≠ Some key) →
  day_to_row_of rows !! key = Some (i, id).
Proof.
  revert i row. induction rows as [|last rows IH] using rev_ind;
    intros i row Hi H0 H1 Hlater; [done|].
  rewrite day_to_row_of_snoc.
  destruct (decide (i = length rows)) as [->|Hne].
  - rewrite lookup_app_r, Nat.sub_diag in Hi by done. cbn in Hi. simplify_eq.
    destruct row as [|c0 [|c1 row]]; [done..|]. cbn in H0, H1. simplify_eq.
    cbn [length]. rewrite (proj2 (Nat.ltb_lt _ _)) by lia.
    change ((key :: id :: row) !!! 0) with key.
    change ((key :: id :: row) !!! 1) with id.
    by rewrite lookup_insert_eq.
  - assert (i < length rows) as Hlt.
    { apply lookup_lt_Some in Hi. rewrite length_app in Hi. cbn in Hi. lia. }
    rewrite lookup_app_l in Hi by done.
    assert (day_to_row_of rows !! key = Some (i, id)) as Hrec.
    { eapply IH; [done..|]. intros j later Hj Hl. apply (Hlater j); [done|].
      by rewrite lookup_app_l by (by eapply lookup_lt_Some). }
    destruct (Nat.ltb_spec 1 (length last)) as [Hlen|Hlen]; [|done].
    rewrite lookup_insert_ne; [done|].
    intros Hk. apply (Hlater (length rows) last); [done| |done|].
    + by rewrite lookup_app_r, Nat.sub_diag by done.
    + destruct last as [|c0 l]; [simpl in Hlen; lia|]. cbn in Hk. by subst.
Qed.

(** ** The run *)

Section Run.
Context {F : PyFloat} {N : Network}.
Implicit Types (d : disk) (t : table) (m : machine) (st : progress).

Lemma process_file_returns d tok t f st m :
  ∃ st' m', process_file d tok t f st m = (Returned st', m').
Proof.
  destruct st as [rows n].
  destruct (process_file_log d tok t f rows n m) as (st' & r' & evs & E & _).
  eauto.
Qed.

Lemma for_each_cons {A S} (step : A → S → io S) x rest s m s' m' :
  step x s m = (Returned s', m') →
  for_each step (x :: rest) s m = for_each step rest s' m'.
Proof. intros E. cbn [for_each]. unfold bind. by rewrite E. Qed.

Lemma for_each_app {A S} (step : A → S → io S) l1 l2 s m s' m' :
  for_each step l1 s m = (Returned s', m') →
  for_each step (l1 ++ l2) s m = for_each step l2 s' m'.
Proof.
  revert s m. induction l1 as [|x l1 IH]; intros s m E.
  - cbn in E. unfold ret in E. by simplify_eq.
  - cbn [for_each app] in *. unfold bind in *.
    destruct (step x s m) as [[s1|e] m1]; [|done]. by apply IH.
Qed.

(** A property that every track file keeps holds when the loop ends,
    and the loop does end: no track file raises. *)
Lemma for_each_invariant (P : progress → machine → Prop) d tok t fs st m :
  (∀ f st m st' m', f ∈ fs → P st m →
     process_file d tok t f st m = (Returned st', m') → P st' m') →
  P st m →
  ∃ st' m', for_each (process_file d tok t) fs st m = (Returned st', m')
            ∧ P st' m'.
Proof.
  revert st m. induction fs as [|f fs IH]; intros st m Hstep HP.
  - by exists st, m.
  - destruct (process_file_returns d tok t f st m) as (st1 & m1 & E1).
    rewrite (for_each_cons _ _ _ _ _ _ _ E1).
    apply IH.
    + intros g ? ? ? ? Hg. apply Hstep. by right.
    + eapply Hstep; [by left | done | done].
Qed.

Lemma sorted_nil : sorted [] = [].
Proof. reflexivity. Qed.

Lemma process_gpx_files_run d tok t m :
  process_gpx_files d tok t m
  = match for_each (process_file d tok t) (candidates (listing d))
                   (rows t, 0) (scanned m) with
    | (Returned st, m') =>
        if 0 <? st.2
        then (Returned tt,
              {| net := net m'; log := log m' ++ [Saved (header t) st.1] |})
        else (Returned tt, m')
    | (Raised e, m') => (Raised e, m')
    end.
Proof.
  unfold process_gpx_files, glob, bind, emit, ret, candidates.
  cbn [net log]. rewrite <- app_assoc. cbn [app]. fold (scanned m).
  destruct (List.filter _ (listing d) ++ List.filter _ (listing d)) as [|x l] eqn:E.
  - rewrite sorted_nil. done.
  - destruct (for_each _ _ _ _) as [[st|e] m']; [|done].
    by destruct (0 <? st.2).
Qed.

Lemma main_ready d tok t m :
  ready d tok t → main d m = process_gpx_files d tok t m.
Proof.
  intros (Hdir & (content & Htok & Hstrip) & Hne & Hcsv & Hg & Hmap).
  unfold main. rewrite Hdir, Hcsv. cbn [negb].
  unfold try_except, bind, read_api_token, read_csv.
  rewrite Htok, Hcsv, Hstrip, Hg.
  apply String.eqb_neq in Hne. rewrite Hne. unfold ret.
  rewrite <- Hmap. by destruct t.
Qed.

(** Past its start the run ends with status 0. *)
Lemma run_ready d tok t r :
  ready d tok t →
  ∃ st m',
    for_each (process_file d tok t) (candidates (listing d)) (rows t, 0)
             (scanned (boot r)) = (Returned st, m')
    ∧ run d r = (0%Z, if 0 <? st.2
                      then log m' ++ [Saved (header t) st.1]
                      else log m').
Proof.
  intros Hr. unfold run. fold (boot r). rewrite (main_ready _ _ _ _ Hr).
  rewrite process_gpx_files_run.
  destruct (for_each_invariant (λ _ _, True) d tok t (candidates (listing d))
              (rows t, 0) (scanned (boot r))) as (st & m' & E & _); [done..|].
  exists st, m'. split; [done|]. rewrite E. by destruct (0 <? st.2).
Qed.

Lemma index_of_elem x l i : index_of x l = Some i → x ∈ l.
Proof.
  revert i. induction l as [|y l IH]; intros i; [done|]. cbn [index_of].
  destruct (String.eqb_spec y x) as [->|_]; [intros; by left|].
  destruct (index_of x l) as [j|]; [|done]. intros _. right. by eapply IH.
Qed.

(** The start of [main] either makes the run ready or ends it with
    [sys.exit(1)], the machine untouched. *)
Lemma main_aborts_or_ready d m :
  (∃ tok t, ready d tok t) ∨ main d m = (Raised (SystemExit 1), m).
Proof.
  unfold main, ready.
  destruct (gpx_dir_is_dir d) eqn:Hdir; [|by right]. cbn [negb].
  destruct (csv_file d) as [| |[|header rows]] eqn:Hcsv; [by right|..];
    unfold try_except, bind, read_api_token, read_csv, sys_exit, raise, ret;
    rewrite ?Hcsv;
    (destruct (token_file d) as [| |content] eqn:Htok; [by right|by right|]);
    (destruct (String.eqb_spec (strip content) "") as [Hs|Hs]; [by right|]);
    try (by right).
  destruct (index_of "geometry" header) as [g|] eqn:Hg; [|by right].
  left. exists (strip content),
    {| header := header; rows := rows; geometry_idx := g;
       day_to_row := day_to_row_of rows |}.
  cbn. eauto 10.
Qed.

(** C7. Each fatal precondition (the input directory missing, the table
    file missing, the credential file missing or empty once trimmed, no
    [geometry] column in the header) ends the run with exit status 1 and
    an empty log: no directory scan, no track file read, no request, no
    write. In particular an empty credential file ends the run before the
    directory is scanned. *)
Theorem fatal_precondition_aborts d r :
  gpx_dir_is_dir d = false
  ∨ csv_file d = Absent
  ∨ token_file d = Absent
  ∨ (∃ content, token_file d = Holds content ∧ strip content = "")
  ∨ (∃ header rows, csv_file d = Holds (header :: rows) ∧ "geometry" ∉ header) →
  run d r = (1%Z, []).
Proof.
  intros Hfatal. unfold run.
  destruct (main_aborts_or_ready d (boot r))
    as [(tok & t & Hdir & (c & Htok & Hstrip) & Hne & Hcsv & Hg & _) | ->];
    [exfalso | done].
  destruct Hfatal as [H|[H|[H|[(c' & H & Hs)|(h & rs & H & Hnot)]]]];
    try congruence.
  - rewrite Hcsv in H. simplify_eq. by apply index_of_elem in Hg.
Qed.

Lemma process_file_refused d tok t f rows n m i id gpx :
  day_to_row t !! stem f = Some (i, id) → id ≠ "" →
  gpx_file d f = Some gpx → coordinates_of gpx ≠ [] →
  let coords := coordinates_of gpx in
  let a := exchange (net m) (fetch_request id tok) in
  (refused a.1
   ∨ ∃ fv, fetched_form_values a.1 = Some fv
           ∧ refused (exchange a.2 (update_request id tok fv coords)).1) →
  ∃ m', process_file d tok t f (rows, n) m = (Returned (rows, n), m').
Proof.
  intros Hl Hid Hg Hc coords a Hbad.
  rewrite (process_file_remote _ _ _ _ _ _ _ i id gpx) by done.
  pose proof (update_fulcrum_record_fetched id coords tok (opened f m)) as Hf.
  pose proof (update_fulcrum_record_not_fetched id coords tok (opened f m)) as Hn.
  cbv zeta in Hf, Hn. cbn [opened net log] in Hf, Hn. fold a in Hf, Hn.
  fold coords.
  destruct Hbad as [(resp & Ha & Hs) | (fv & Hfv & resp & Hb & Hs)].
  - destruct Hn as (o & -> & Ho).
    { rewrite Ha. cbn. by rewrite bool_decide_false. }
    eexists. by destruct o as [[|]|].
  - rewrite (Hf fv Hfv), Hb. rewrite bool_decide_false by done. by eexists.
Qed.

Lemma process_file_updated d tok t f rows n m i id gpx fv row :
  day_to_row t !! stem f = Some (i, id) → id ≠ "" →
  gpx_file d f = Some gpx → coordinates_of gpx ≠ [] →
  let coords := coordinates_of gpx in
  let fetch := fetch_request id tok in
  let update := update_request id tok fv coords in
  let a := exchange (net m) fetch in
  let b := exchange a.2 update in
  fetched_form_values a.1 = Some fv → accepted b.1 →
  rows !! i = Some row →
  process_file d tok t f (rows, n) m
  = (Returned (written t i coords rows, S n),
     {| net := b.2;
        log := log m ++ [Parsed f; Sent fetch a.1; Sent update b.1] |}).
Proof.
  intros Hl Hid Hg Hc coords fetch update a b Hfv (resp & Hb & Hs) Hrow.
  rewrite (process_file_remote _ _ _ _ _ _ _ i id gpx) by done.
  pose proof (update_fulcrum_record_fetched id coords tok (opened f m) fv) as Hf.
  cbv zeta in Hf. cbn [opened net log] in Hf. fold coords.
  rewrite (Hf Hfv). fold fetch a update b. rewrite Hb, Hrow.
  rewrite bool_decide_true by done. by rewrite <- app_assoc.
Qed.
End Run.

(** ** The claims on the run *)

Section Claims.
Context {F : PyFloat} {N : Network}.
Implicit Types (d : disk) (t : table) (m : machine) (st : progress).

(** A run whose loop has come past the track file [f]: what holds after
    [f] and is kept by the files that follow holds of the table and
    counter at the end, and the run ends with status 0. *)
Lemma run_split (P : progress → machine → Prop) d tok t r pre f post st m st1 m1 :
  ready d tok t →
  candidates (listing d) = pre ++ f :: post →
  for_each (process_file d tok t) pre (rows t, 0) (scanned (boot r))
  = (Returned st, m) →
  process_file d tok t f st m = (Returned st1, m1) →
  P st1 m1 →
  (∀ g st m st' m', g ∈ post → P st m →
     process_file d tok t g st m = (Returned st', m') → P st' m') →
  ∃ st_end m_end,
    P st_end m_end
    ∧ run d r = (0%Z, if 0 <? st_end.2
                      then log m_end ++ [Saved (header t) st_end.1]
                      else log m_end).
Proof.
  intros Hr Hc Hpre Hf HP Hkeep.
  destruct (for_each_invariant P d tok t post st1 m1 Hkeep HP)
    as (st_end & m_end & Hpost & Hend).
  exists st_end, m_end. split; [done|].
  destruct (run_ready d tok t r Hr) as (st' & m' & Hall & ->).
  rewrite Hc in Hall. rewrite (for_each_app _ _ _ _ _ _ _ Hpre) in Hall.
  rewrite (for_each_cons _ _ _ _ _ _ _ Hf), Hpost in Hall. by simplify_eq.
Qed.

(** C5. For a matched file (its date key has a row with a fulcrum id)
    with a non-empty track: if the fetch is answered with a status other
    than 200, or the update is, the table and the counter are as before,
    and the loop goes on with the next file. *)
Theorem remote_failure_skips_file d tok t f rest rows n m i id gpx :
  day_to_row t !! stem f = Some (i, id) → id ≠ "" →
  gpx_file d f = Some gpx → coordinates_of gpx ≠ [] →
  let coords := coordinates_of gpx in
  let a := exchange (net m) (fetch_request id tok) in
  (refused a.1
   ∨ ∃ fv, fetched_form_values a.1 = Some fv
           ∧ refused (exchange a.2 (update_request id tok fv coords)).1) →
  ∃ m',
    process_file d tok t f (rows, n) m = (Returned (rows, n), m')
    ∧ for_each (process_file d tok t) (f :: rest) (rows, n) m
      = for_each (process_file d tok t) rest (rows, n) m'.
Proof.
  intros Hl Hid Hg Hc coords a Hbad.
  destruct (process_file_refused d tok t f rows n m i id gpx Hl Hid Hg Hc Hbad)
    as (m' & E).
  exists m'. split; [done|]. by apply for_each_cons.
Qed.

Lemma replacement_coords fv fv' coords :
  replacement fv coords = replacement fv' [] → coords = [].
Proof.
  unfold replacement, json_coords. intros [= _ H]. by destruct coords.
Qed.

Lemma process_file_no_empty_geometry d tok t f st m st' m' :
  no_empty_geometry (log m) →
  process_file d tok t f st m = (Returned st', m') →
  no_empty_geometry (log m').
Proof.
  intros Hm E. destruct st as [rows n].
  destruct (process_file_log d tok t f rows n m) as (st1 & r1 & evs & E1 & Hcases).
  rewrite E1 in E. simplify_eq. cbn [log].
  intros rq rs fv [Hin|Hin]%elem_of_app; [by eapply Hm|].
  destruct Hcases as [(-> & _)|[(-> & _)|(i & id & gpx & _ & _ & _ & Hc & Hev)]].
  - by apply elem_of_nil in Hin.
  - apply list_elem_of_singleton in Hin. done.
  - cbv zeta in Hev.
    destruct (fetched_form_values _) as [fv'|]; destruct Hev as (-> & _).
    + apply elem_of_cons in Hin as [?|Hin]; [done|].
      apply elem_of_cons in Hin as [?|Hin]; [by simplify_eq|].
      apply list_elem_of_singleton in Hin. simplify_eq. cbn [body update_request].
      intros H.
      assert (replacement fv' (coordinates_of gpx) = replacement fv []) as H'
        by congruence.
      by apply replacement_coords in H'.
    + apply elem_of_cons in Hin as [?|Hin]; [done|].
      apply list_elem_of_singleton in Hin. by simplify_eq.
Qed.

Lemma run_no_empty_geometry d r : no_empty_geometry (run d r).2.
Proof.
  destruct (main_aborts_or_ready d (boot r)) as [(tok & t & Hr)|Hab].
  - destruct (for_each_invariant (λ _ m, no_empty_geometry (log m)) d tok t
                (candidates (listing d)) (rows t, 0) (scanned (boot r)))
      as (st & m' & E & Hlog).
    { intros. by eapply process_file_no_empty_geometry. }
    { intros rq rs fv Hin. cbn in Hin.
      apply elem_of_cons in Hin as [?|Hin]; [done|].
      apply list_elem_of_singleton in Hin. done. }
    destruct (run_ready d tok t r Hr) as (st2 & m2 & E2 & ->).
    rewrite E in E2. simplify_eq. cbn [snd].
    destruct (0 <? st2.2); [|done].
    intros rq rs fv [Hin|Hin]%elem_of_app; [by eapply Hlog|].
    apply list_elem_of_singleton in Hin. done.
  - unfold run. fold (boot r). rewrite Hab. cbn. intros ??? Hin.
    by apply elem_of_nil in Hin.
Qed.

(** C6. A file whose date key has no row, or whose row has an empty
    fulcrum id, or whose track has no point, is passed over: the table
    and the counter are as before, the remote is as before and the log
    has no new request, and the loop goes on with the next file. The run
    ends with exit status 0, and no request of a run carries an empty
    geometry. *)
Theorem skipped_file_makes_no_call d tok t r f rest st m :
  ready d tok t →
  day_to_row t !! stem f = None
  ∨ (∃ i, day_to_row t !! stem f = Some (i, ""))
  ∨ (∃ gpx, gpx_file d f = Some gpx ∧ coordinates_of gpx = []) →
  (∃ m',
     process_file d tok t f st m = (Returned st, m')
     ∧ net m' = net m
     ∧ requests_of (log m') = requests_of (log m)
     ∧ for_each (process_file d tok t) (f :: rest) st m
       = for_each (process_file d tok t) rest st m')
  ∧ (run d r).1 = 0%Z
  ∧ no_empty_geometry (run d r).2.
Proof.
  intros Hr Hskip. split; [|split].
  - assert (process_file d tok t f st m = (Returned st, m)
            ∨ process_file d tok t f st m = (Returned st, opened f m)) as Hp.
    { destruct (day_to_row t !! stem f) as [[i id]|] eqn:Hl.
      2:{ left. by apply process_file_unmatched. }
      destruct (decide (id = "")) as [->|Hid].
      { left. by eapply process_file_no_id. }
      destruct Hskip as [?|[(j & ?)|(gpx & Hg & Hc)]]; [done|by simplify_eq|].
      right. by eapply process_file_empty. }
    destruct Hp as [E|E]; eexists; (split; [exact E|]).
    + split; [done|]. split; [done|]. by apply for_each_cons.
    + split; [done|]. split; [|by apply for_each_cons].
      unfold requests_of. cbn [opened log]. rewrite omap_app. cbn.
      by rewrite app_nil_r.
  - by destruct (run_ready d tok t r Hr) as (st' & m' & _ & ->).
  - apply run_no_empty_geometry.
Qed.


(** A track file leaves the table and the counter, or writes one row
    (the row of its date key) and adds one to the counter. *)
Lemma process_file_progress d tok t f rows n m rows' n' m' :
  process_file d tok t f (rows, n) m = (Returned (rows', n'), m') →
  (rows' = rows ∧ n' = n)
  ∨ ∃ i id gpx, day_to_row t !! stem f = Some (i, id)
                ∧ rows' = written t i (coordinates_of gpx) rows ∧ n' = S n.
Proof.
  intros E.
  destruct (process_file_log d tok t f rows n m) as (st1 & r1 & evs & E1 & Hcases).
  rewrite E1 in E. injection E as -> _.
  destruct Hcases as [(_ & _ & Hst)|[(_ & _ & Hst)|(i & id & gpx & Hl & _ & _ & _ & Hev)]].
  - injection Hst as -> ->. by left.
  - injection Hst as -> ->. by left.
  - cbv zeta in Hev.
    destruct (fetched_form_values _) as [fv|].
    2:{ destruct Hev as (_ & _ & Hst). injection Hst as -> ->. by left. }
    destruct Hev as (_ & _ & Hst).
    destruct ((exchange _ (update_request id tok fv (coordinates_of gpx))).1)
      as [resp|].
    2:{ injection Hst as -> ->. by left. }
    case_bool_decide.
    2:{ injection Hst as -> ->. by left. }
    destruct (rows !! i); injection Hst as -> ->; [right | by left].
    by exists i, id, gpx.
Qed.


(** C10. When the update succeeds for a matched file whose row has too
    few cells to hold the geometry column, the table is left as it was
    and the counter is still incremented; the counter being positive,
    the run ends by rewriting the table file. *)
Theorem short_row_still_counts d tok t r pre f post cur n m i id gpx fv row :
  ready d tok t →
  candidates (listing d) = pre ++ f :: post →
  for_each (process_file d tok t) pre (rows t, 0) (scanned (boot r))
  = (Returned (cur, n), m) →
  day_to_row t !! stem f = Some (i, id) → id ≠ "" →
  gpx_file d f = Some gpx → coordinates_of gpx ≠ [] →
  let coords := coordinates_of gpx in
  let a := exchange (net m) (fetch_request id tok) in
  let b := exchange a.2 (update_request id tok fv coords) in
  fetched_form_values a.1 = Some fv → accepted b.1 →
  cur !! i = Some row → length row ≤ geometry_idx t →
  (∃ m', process_file d tok t f (cur, n) m = (Returned (cur, S n), m'))
  ∧ ∃ evs rows_end, run d r = (0%Z, evs ++ [Saved (header t) rows_end]).
Proof.
  intros Hr Hc Hpre Hl Hid Hg Hne coords a b Hfv Hacc Hrow Hshort.
  pose proof (process_file_updated d tok t f cur n m i id gpx fv row
                Hl Hid Hg Hne Hfv Hacc Hrow) as E.
  assert (written t i coords cur = cur) as Hw.
  { unfold written. rewrite Hrow.
    by rewrite (proj2 (Nat.ltb_ge _ _)) by done. }
  fold coords in E. rewrite Hw in E. split; [by eexists|].
  destruct (run_split (λ st _, 0 < st.2) d tok t r pre f post _ _ _ _
              Hr Hc Hpre E) as (st_end & m_end & Hpos & ->).
  { cbn. lia. }
  { intros g [rs k] m0 [rs' k'] m0' _ Hk Hp. cbn in *.
    apply process_file_progress in Hp as [[_ ->]|(? & ? & ? & _ & _ & ->)]; lia. }
  rewrite (proj2 (Nat.ltb_lt _ _)) by done. eauto.
Qed.


End Claims.

(** ** The candidate files *)

Lemma filter_Permutation_bool {A} (p : A → bool) (l l' : list A) :
  l ≡ₚ l' → List.filter p l ≡ₚ List.filter p l'.
Proof.
  induction 1 as [|x l l' _ IH|x y l|l l' l'' _ IH1 _ IH2]; cbn [List.filter].
  - done.
  - destruct (p x); [by constructor | done].
  - destruct (p x), (p y); try done. apply perm_swap.
  - by etrans.
Qed.

Lemma elem_of_filter_bool {A} (p : A → bool) (l : list A) x :
  x ∈ List.filter p l ↔ x ∈ l ∧ p x = true.
Proof. rewrite !list_elem_of_In. apply filter_In. Qed.

Section Order.
Context {F : PyFloat} {N : Network}.

(** C9, as amended. The candidates are the names of the directory that
    end in [.gpx] or in [.GPX], in exactly these two spellings; they are
    in the order of their names; the order of the directory listing does
    not change them; and the loop of the run visits them in this order. *)
Theorem candidates_exact_case_sorted (names : list string) :
  (∀ name, name ∈ candidates names
           ↔ name ∈ names
             ∧ (endswith name ".gpx" = true ∨ endswith name ".GPX" = true))
  ∧ Sorted String.le (candidates names)
  ∧ (∀ names', names' ≡ₚ names → candidates names' = candidates names)
  ∧ ∀ d tok t m,
      process_gpx_files d tok t m
      = match for_each (process_file d tok t) (candidates (listing d))
                       (rows t, 0) (scanned m) with
        | (Returned st, m') =>
            if 0 <? st.2
            then (Returned tt,
                  {| net := net m'; log := log m' ++ [Saved (header t) st.1] |})
            else (Returned tt, m')
        | (Raised e, m') => (Raised e, m')
        end.
Proof.
  split; [|split; [|split]].
  - intros name. unfold candidates, sorted. rewrite merge_sort_Permutation.
    rewrite elem_of_app, !elem_of_filter_bool. tauto.
  - apply (Sorted_merge_sort String.le).
  - intros names' Hp. unfold candidates, sorted.
    apply (Sorted_unique String.le); try apply (Sorted_merge_sort String.le).
    rewrite !merge_sort_Permutation.
    by rewrite (filter_Permutation_bool _ _ _ Hp), (filter_Permutation_bool _ names' _ Hp).
  - intros. apply process_gpx_files_run.
Qed.
End Order.

(** * Further properties of the code *)

(** ** The track reader *)

Section TrackReader.
Context {F : PyFloat}.

Lemma flat_map_concat_map {A B} (f : A → list B) (l : list A) :
  flat_map f l = concat (map f l).
Proof. induction l as [|x l IH]; [done|]. cbn. by rewrite IH. Qed.

(** X1. The coordinates of a track file are its points in file order
    (track by track, segment by segment), each as (longitude, latitude):
    there are as many coordinates as points, and there is none exactly
    when every segment of every track is empty. *)
Theorem coordinates_follow_points (gpx : GPX) :
  coordinates_of gpx
  = map (λ p, (longitude p, latitude p)) (all_points gpx)
  ∧ length (coordinates_of gpx) = length (all_points gpx)
  ∧ (coordinates_of gpx = []
     ↔ Forall (λ track, Forall (λ segment, points segment = [])
                               (segments track))
              (tracks gpx)).
Proof.
  assert (coordinates_of gpx
          = map (λ p, (longitude p, latitude p)) (all_points gpx)) as E.
  { unfold coordinates_of, all_points. destruct gpx as [ts]. cbn [tracks].
    induction ts as [|t ts IH]; [done|]. cbn [flat_map map concat].
    rewrite IH, (map_app points), concat_app, map_app. f_equal.
    destruct t as [ss]. cbn [segments].
    induction ss as [|s ss IHs]; [done|]. cbn [flat_map map concat].
    by rewrite IHs, map_app. }
  split; [done|]. split; [by rewrite E, length_map|].
  rewrite E. unfold all_points.
  assert (∀ l : list GPXTrackPoint,
            map (λ p, (longitude p, latitude p)) l = [] ↔ l = []) as ->.
  { intros l. split; [apply map_eq_nil | by intros ->]. }
  rewrite concat_nil_Forall, List.Forall_map, Forall_concat, List.Forall_map.
  done.
Qed.
End TrackReader.

(** ** The token *)

Lemma drop_space_cons sd a l1 :
  drop_space sd (a :: l1)
  = if one sd a then drop_space sd l1
    else
      match l1 with
      | [] => a :: l1
      | b :: l2 =>
          if two sd a b then drop_space sd l2
          else
            match l2 with
            | [] => a :: l1
            | c :: l3 => if three sd a b c then drop_space sd l3 else a :: l1
            end
      end.
Proof. by destruct l1 as [|b [|c l3]]. Qed.

Lemma drop_space_suffix sd l : ∃ k, l = k ++ drop_space sd l.
Proof.
  remember (length l) as n eqn:Hn. revert l Hn.
  induction n as [n IH] using lt_wf_ind. intros l Hn.
  destruct l as [|a l1]; [by exists []|]. rewrite drop_space_cons.
  destruct (one sd a).
  { destruct (IH (length l1) ltac:(cbn in *; lia) _ eq_refl) as [k Hk].
    exists (a :: k). cbn [app]. by rewrite <- Hk. }
  destruct l1 as [|b l2]; [by exists []|].
  destruct (two sd a b).
  { destruct (IH (length l2) ltac:(cbn in *; lia) _ eq_refl) as [k Hk].
    exists (a :: b :: k). cbn [app]. by rewrite <- Hk. }
  destruct l2 as [|c l3]; [by exists []|].
  destruct (three sd a b c); [|by exists []].
  destruct (IH (length l3) ltac:(cbn in *; lia) _ eq_refl) as [k Hk].
  exists (a :: b :: c :: k). cbn [app]. by rewrite <- Hk.
Qed.

Lemma drop_space_heads sd l : heads_space sd (drop_space sd l) = false.
Proof.
  remember (length l) as n eqn:Hn. revert l Hn.
  induction n as [n IH] using lt_wf_ind. intros l Hn.
  destruct l as [|a l1]; [done|]. rewrite drop_space_cons.
  destruct (one sd a) eqn:E1.
  { apply (IH (length l1)); [cbn in *; lia | done]. }
  destruct l1 as [|b l2]; [cbn; by rewrite E1|].
  destruct (two sd a b) eqn:E2.
  { apply (IH (length l2)); [cbn in *; lia | done]. }
  destruct l2 as [|c l3]; [cbn; by rewrite E1, E2|].
  destruct (three sd a b c) eqn:E3.
  { apply (IH (length l3)); [cbn in *; lia | done]. }
  cbn. by rewrite E1, E2, E3.
Qed.

Lemma heads_space_app sd p q :
  heads_space sd p = true → heads_space sd (p ++ q) = true.
Proof.
  destruct p as [|a [|b [|c p]]]; cbn; try done.
  - intros H. rewrite orb_false_r in H. by rewrite H.
  - rewrite orb_false_r. intros [->|H]%orb_true_iff; [done|].
    rewrite H. by rewrite orb_true_r.
Qed.

Lemma strip_no_space s :
  starts_with_space (strip s) = false ∧ ends_with_space (strip s) = false.
Proof.
  unfold starts_with_space, ends_with_space, strip, rstrip, lstrip.
  rewrite !list_ascii_of_string_of_list_ascii.
  set (L := drop_space from_start (list_ascii_of_string s)).
  split.
  - destruct (heads_space from_start (rev (drop_space from_end (rev L)))) eqn:H;
      [|done].
    destruct (drop_space_suffix from_end (rev L)) as [k Hk].
    apply (f_equal (@rev ascii)) in Hk. rewrite rev_involutive, rev_app_distr in Hk.
    apply (heads_space_app _ _ (rev k)) in H. rewrite <- Hk in H.
    unfold L in H. by rewrite drop_space_heads in H.
  - rewrite rev_involutive. apply drop_space_heads.
Qed.

(** Whitespace beyond ASCII is trimmed as well: a no-break space
    (C2 A0) before the token and an ideographic space (E3 80 80) after
    it; a file of one no-break space holds no token. *)
Lemma strip_beyond_ascii :
  strip (String "194" (String "160"
           (" secret" +:+ String "227" (String "128" (String "128" "")))))
  = "secret"
  ∧ strip (String "194" (String "160" "")) = "".
Proof. split; reflexivity. Qed.

Section Token.
Context {F : PyFloat} {N : Network}.

(** X2. Reading the token never touches the machine. It returns a
    token only from a token file with content, and the token is that
    content trimmed: it is not empty and neither starts nor ends with a
    whitespace character, of one byte or more. A missing file or a
    content of whitespace only ends with [sys.exit(1)]; a file that
    cannot be opened raises the error of [open]. *)
Theorem read_api_token_outcomes (d : disk) (m : machine) :
  match read_api_token d m with
  | (Returned token, m') =>
      m' = m
      ∧ (∃ content, token_file d = Holds content ∧ token = strip content)
      ∧ token ≠ ""
      ∧ starts_with_space token = false
      ∧ ends_with_space token = false
  | (Raised e, m') =>
      m' = m
      ∧ (e = SystemExit 1
         ∧ (token_file d = Absent
            ∨ ∃ content, token_file d = Holds content ∧ strip content = "")
         ∨ e = OSError ∧ token_file d = Unreadable)
  end.
Proof.
  unfold read_api_token, sys_exit, raise, ret.
  destruct (token_file d) as [| |content] eqn:Ht.
  - split; [done|]. left. auto.
  - split; [done|]. right. auto.
  - destruct (String.eqb_spec (strip content) "") as [Hs|Hs].
    + split; [done|]. left. split; [done|]. right. by exists content.
    + split; [done|]. split; [by exists content|]. split; [done|].
      apply strip_no_space.
Qed.
End Token.

(** ** The record client, further *)

Section ClientMore.
Context {F : PyFloat} {N : Network}.

(** X3. The update operation returns [True] exactly when the fetch
    brought a record back and the update was answered with status 200;
    and whatever it raises is an exception that [except Exception]
    catches, never [SystemExit]. *)
Theorem update_succeeds_iff record_id coords api_token m :
  let a := exchange (net m) (fetch_request record_id api_token) in
  ((update_fulcrum_record record_id coords api_token m).1 = Returned true
   ↔ ∃ fv, fetched_form_values a.1 = Some fv
           ∧ accepted (exchange a.2 (update_request record_id api_token fv coords)).1)
  ∧ ∀ e, (update_fulcrum_record record_id coords api_token m).1 = Raised e →
         is_Exception e = true.
Proof.
  intros a.
  pose proof (update_fulcrum_record_fetched record_id coords api_token m) as Hf.
  pose proof (update_fulcrum_record_not_fetched record_id coords api_token m) as Hn.
  cbv zeta in Hf, Hn. fold a in Hf, Hn.
  destruct (fetched_form_values a.1) as [fv|] eqn:Hfv.
  - rewrite (Hf fv eq_refl). cbn [fst]. split.
    + split.
      * intros H. exists fv. split; [done|].
        destruct ((exchange a.2 (update_request record_id api_token fv coords)).1)
          as [resp|]; [|done].
        exists resp. split; [done|]. by case_bool_decide.
      * intros (fv' & [= <-] & resp & -> & Hs). by rewrite bool_decide_true.
    + intros e.
      destruct ((exchange a.2 (update_request record_id api_token fv coords)).1);
        [done | by intros [= <-]].
  - destruct (Hn eq_refl) as (o & -> & Ho). cbn [fst]. split.
    + split; [intros -> | intros (fv & ? & _)]; done.
    + intros e ->. exact Ho.
Qed.
End ClientMore.

(** ** One track file, further *)

Section FileMore.
Context {F : PyFloat} {N : Network}.
Implicit Types (d : disk) (t : table) (m : machine) (st : progress).

(** X4. Processing a track file always returns: no exception leaves
    the loop body. The table and the counter come back as they were,
    unless the file is matched to a row with a fulcrum id, its track has
    points, the fetch brought a record back and the update was answered
    with status 200; then the counter grows by one and the matched row is
    the only row written. *)
Theorem file_changes_only_when_accepted d tok t f tbl n m :
  ∃ st' m',
    process_file d tok t f (tbl, n) m = (Returned st', m')
    ∧ (st' = (tbl, n)
       ∨ ∃ i id gpx fv row,
           day_to_row t !! stem f = Some (i, id) ∧ id ≠ ""
           ∧ gpx_file d f = Some gpx ∧ coordinates_of gpx ≠ []
           ∧ tbl !! i = Some row
           ∧ let coords := coordinates_of gpx in
             let a := exchange (net m) (fetch_request id tok) in
             fetched_form_values a.1 = Some fv
             ∧ accepted (exchange a.2 (update_request id tok fv coords)).1
             ∧ st' = (written t i coords tbl, S n)).
Proof.
  destruct (process_file_log d tok t f tbl n m) as (st' & r' & evs & E & Hcases).
  exists st', {| net := r'; log := log m ++ evs |}. split; [done|].
  destruct Hcases as [(_ & _ & ->)|[(_ & _ & ->)|(i & id & gpx & Hl & Hid & Hg & Hc & Hev)]];
    [by left..|].
  cbv zeta in Hev.
  destruct (fetched_form_values _) as [fv|] eqn:Hfv;
    [|destruct Hev as (_ & _ & ->); by left].
  destruct Hev as (_ & _ & ->).
  destruct ((exchange _ (update_request id tok fv (coordinates_of gpx))).1)
    as [resp|] eqn:Hb; [|by left].
  case_bool_decide as Hs; [|by left].
  destruct (tbl !! i) as [row|] eqn:Hrow; [|by left].
  right. exists i, id, gpx, fv, row. repeat split; try done.
  cbv zeta. rewrite Hb. by exists resp.
Qed.

Lemma index_of_complete x l : x ∈ l → ∃ i, index_of x l = Some i.
Proof.
  induction l as [|y l IH]; [by intros ?%elem_of_nil|].
  cbn [index_of]. destruct (String.eqb_spec y x) as [->|Hne]; [by eauto|].
  intros [?|Hin]%elem_of_cons; [done|].
  destruct (IH Hin) as [i ->]. by eauto.
Qed.

(** X5. The exit status of a run is 0 exactly when the track
    directory is there, the token file holds a token that is not blank,
    and the table file holds a header with a [geometry] column; every
    other run ends with status 1 and has done nothing. *)
Theorem exit_status_by_preconditions d r :
  ((run d r).1 = 0%Z
   ↔ gpx_dir_is_dir d = true
     ∧ (∃ content, token_file d = Holds content ∧ strip content ≠ "")
     ∧ (∃ columns entries,
          csv_file d = Holds (columns :: entries) ∧ "geometry" ∈ columns))
  ∧ ((run d r).1 ≠ 0%Z → run d r = (1%Z, [])).
Proof.
  assert ((∃ tok t, ready d tok t) → (run d r).1 = 0%Z) as Hready.
  { intros (tok & t & Hr). by destruct (run_ready d tok t r Hr) as (? & ? & _ & ->). }
  assert (run d r = (1%Z, []) ∨ ∃ tok t, ready d tok t) as Hcases.
  { destruct (main_aborts_or_ready d (boot r)) as [?|Hab]; [by right|left].
    unfold run. by rewrite Hab. }
  split; [split|].
  - intros H0. destruct Hcases as [E|(tok & t & Hr)]; [by rewrite E in H0|].
    destruct Hr as (Hdir & (content & Htok & <-) & Hne & Hcsv & Hg & _).
    split; [done|]. split; [by exists content|].
    exists (header t), (rows t). split; [done|]. by eapply index_of_elem.
  - intros (Hdir & (content & Htok & Hne) & (cols & ents & Hcsv & Hin)).
    apply Hready. destruct (index_of_complete _ _ Hin) as [g Hg].
    exists (strip content),
      {| header := cols; rows := ents; geometry_idx := g;
         day_to_row := day_to_row_of ents |}.
    unfold ready. cbn. eauto 10.
  - intros Hne. destruct Hcases as [E|Hr]; [done|]. by apply Hready in Hr.
Qed.
End FileMore.

(** ** The log of a run *)

Section RunMore.
Context {F : PyFloat} {N : Network}.
Implicit Types (d : disk) (t : table) (m : machine) (st : progress).

Lemma run_invariant (P : progress → machine → Prop) d tok t r :
  ready d tok t →
  P (rows t, 0) (scanned (boot r)) →
  (∀ f st m st' m', f ∈ candidates (listing d) → P st m →
     process_file d tok t f st m = (Returned st', m') → P st' m') →
  ∃ st m',
    P st m'
    ∧ run d r = (0%Z, if 0 <? st.2
                      then log m' ++ [Saved (header t) st.1]
                      else log m').
Proof.
  intros Hr H0 Hstep.
  destruct (for_each_invariant P d tok t (candidates (listing d)) (rows t, 0)
              (scanned (boot r)) Hstep H0) as (st & m' & E & HP).
  destruct (run_ready d tok t r Hr) as (st2 & m2 & E2 & ->).
  rewrite E in E2. injection E2 as <- <-. eauto.
Qed.

Lemma process_file_segment d tok t f tbl n m st' m' :
  process_file d tok t f (tbl, n) m = (Returned st', m') →
  ∃ seg, log m' = log m ++ seg ∧ file_segment tok t f seg.
Proof.
  intros E.
  destruct (process_file_log d tok t f tbl n m) as (st1 & r1 & evs & E1 & Hcases).
  rewrite E1 in E. injection E as _ <-. exists evs. split; [done|].
  destruct Hcases as [(-> & _)|[(-> & _)|(i & id & gpx & Hl & Hid & _ & Hc & Hev)]].
  - by left.
  - right; by left.
  - right; right. exists i, id, (exchange (net m) (fetch_request id tok)).1.
    split; [done|]. split; [done|]. cbv zeta in Hev.
    destruct (fetched_form_values _) as [fv|] eqn:Hfv.
    + right. destruct Hev as (-> & _). eauto 10.
    + left. by destruct Hev as (-> & _).
Qed.

Lemma for_each_segments d tok t fs st m :
  ∃ st' m' segs,
    for_each (process_file d tok t) fs st m = (Returned st', m')
    ∧ log m' = log m ++ concat segs
    ∧ Forall2 (file_segment tok t) fs segs.
Proof.
  revert st m. induction fs as [|f fs IH]; intros st m.
  - exists st, m, []. cbn. by rewrite app_nil_r.
  - destruct (process_file_returns d tok t f st m) as (st1 & m1 & E1).
    rewrite (for_each_cons _ _ _ _ _ _ _ E1).
    destruct st as [tbl n].
    destruct (process_file_segment _ _ _ _ _ _ _ _ _ E1) as (seg & Hlog & Hseg).
    destruct (IH st1 m1) as (st' & m' & segs & E & Hlog' & Hsegs).
    exists st', m', (seg :: segs). split; [done|]. split.
    + rewrite Hlog', Hlog. cbn. by rewrite app_assoc.
    + by constructor.
Qed.

(** X9. The log of a run is the two scans, then for each candidate
    file in sorted order one of: nothing; the reading of the file; the
    reading and a fetch that brought no record; the reading, a fetch
    that brought a record and the update carrying its form values and a
    non-empty coordinate list; then at most the save of the table. So an
    update is always preceded, immediately, by the fetch of the same
    record. *)
Theorem run_log_shape d tok t r :
  ready d tok t →
  ∃ segs rest,
    Forall2 (file_segment tok t) (candidates (listing d)) segs
    ∧ (run d r).2 = [Scanned "*.gpx"; Scanned "*.GPX"] ++ concat segs ++ rest
    ∧ (rest = [] ∨ ∃ rows_end, rest = [Saved (header t) rows_end]).
Proof.
  intros Hr.
  destruct (for_each_segments d tok t (candidates (listing d)) (rows t, 0)
              (scanned (boot r))) as (st & m' & segs & E & Hlog & Hsegs).
  destruct (run_ready d tok t r Hr) as (st2 & m2 & E2 & ->).
  rewrite E in E2. injection E2 as <- <-. cbn [snd].
  exists segs. rewrite Hlog. cbn [scanned boot log app].
  destruct (0 <? st.2).
  - exists [Saved (header t) st.1]. split; [done|]. split; [|eauto].
    done.
  - exists []. split; [done|]. split; [|by left]. by rewrite app_nil_r.
Qed.

Lemma accepted_updates_app (l1 l2 : list event) :
  accepted_updates (l1 ++ l2) = accepted_updates l1 + accepted_updates l2.
Proof. unfold accepted_updates. by rewrite List.filter_app, length_app. Qed.

Lemma written_unchanged_but_column t i coords tbl0 tbl :
  unchanged_but_column (geometry_idx t) tbl0 tbl →
  unchanged_but_column (geometry_idx t) tbl0 (written t i coords tbl).
Proof.
  unfold written. intros H.
  destruct (tbl !! i) as [row|] eqn:Hrow; [|done].
  destruct (geometry_idx t <? length row); [|done].
  apply Forall2_same_length_lookup. apply Forall2_same_length_lookup in H as [Hlen H].
  split; [by rewrite length_insert|].
  intros k row0 row' H0 Hk.
  destruct (decide (k = i)) as [->|Hne].
  - rewrite list_lookup_insert_eq in Hk by (by eapply lookup_lt_Some).
    injection Hk as <-. destruct (H i row0 row H0 Hrow) as [Hl Hc].
    split; [by rewrite length_insert|].
    intros j Hj. rewrite list_lookup_insert_ne by done. by apply Hc.
  - rewrite list_lookup_insert_ne in Hk by done. by apply (H k).
Qed.

(** The counter is the number of accepted updates, nothing is saved
    inside the loop, and the table changes in the geometry column only. *)
Lemma run_summary d tok t r :
  ready d tok t →
  ∃ tbl evs,
    Forall (λ ev, is_save ev = false) evs
    ∧ unchanged_but_column (geometry_idx t) (rows t) tbl
    ∧ run d r = (0%Z, if 0 <? accepted_updates evs
                      then evs ++ [Saved (header t) tbl]
                      else evs).
Proof.
  intros Hr.
  destruct (run_invariant
              (λ st m, st.2 = accepted_updates (log m)
                       ∧ Forall (λ ev, is_save ev = false) (log m)
                       ∧ unchanged_but_column (geometry_idx t) (rows t) st.1)
              d tok t r Hr) as ([tbl n] & m' & (Hn & Hs & Hsh) & E).
  { cbn. split; [done|]. split; [by repeat constructor|].
    apply Forall2_same_length_lookup. split; [done|].
    intros i x y Hx Hy. by simplify_eq. }
  { intros f [tbl n] m [tbl' n'] m' _ (Hn & Hs & Hsh) E. cbn [fst snd] in *.
    destruct (process_file_log d tok t f tbl n m) as (st1 & r1 & evs & E1 & Hcases).
    rewrite E1 in E. injection E as -> <-. cbn [log].
    rewrite accepted_updates_app, Forall_app.
    destruct Hcases as [(-> & _ & Hst)|[(-> & _ & Hst)|(i & id & gpx & Hl & _ & _ & _ & Hev)]].
    - injection Hst as -> ->. change (accepted_updates []) with 0.
      split; [lia|]. by split.
    - injection Hst as -> ->. change (accepted_updates [Parsed f]) with 0.
      split; [lia|]. split; [|done]. split; [done | by repeat constructor].
    - cbv zeta in Hev.
      destruct (fetched_form_values _) as [fv|].
      2:{ destruct Hev as (-> & _ & Hst). injection Hst as -> ->.
          change (accepted_updates [Parsed f; Sent (fetch_request id tok) ?a])
            with 0.
          split; [lia|]. split; [|done]. split; [done | by repeat constructor]. }
      destruct Hev as (-> & _ & Hst).
      assert (is_Some (tbl !! i)) as [row Hrow].
      { apply lookup_lt_is_Some. apply Forall2_length in Hsh. rewrite <- Hsh.
        destruct Hr as (_ & _ & _ & _ & _ & Hmap). rewrite Hmap in Hl.
        apply day_to_row_of_entry in Hl as (row0 & H0 & _).
        by eapply lookup_lt_Some. }
      rewrite Hrow in Hst.
      change (accepted_updates [Parsed f; Sent (fetch_request id tok) ?a; ?e])
        with (accepted_updates [e]).
      split; [|split; [split; [done | by repeat constructor]|]].
      + unfold accepted_updates at 2. cbn [List.filter is_accepted_update verb update_request].
        destruct ((exchange _ (update_request id tok fv (coordinates_of gpx))).1)
          as [resp|]; [|injection Hst as -> ->; cbn; lia].
        case_bool_decide; injection Hst as -> ->; cbn; lia.
      + destruct ((exchange _ (update_request id tok fv (coordinates_of gpx))).1)
          as [resp|]; [|by injection Hst as -> ->].
        case_bool_decide; injection Hst as -> ->; [|done].
        by apply written_unchanged_but_column. }
  cbn [fst snd] in *. exists tbl, (log m'). split; [done|]. split; [done|].
  by rewrite <- Hn.
Qed.

(** X6. A run saves the table exactly when some update was accepted
    (answered with status 200): with no accepted update the log has no
    save; with one or more, the save is the last event of the log and
    the only one. *)
Theorem table_saved_iff_update_accepted d tok t r :
  ready d tok t →
  let evs := (run d r).2 in
  (accepted_updates evs = 0 ∧ Forall (λ ev, is_save ev = false) evs)
  ∨ (0 < accepted_updates evs
     ∧ ∃ before rows_end,
         evs = before ++ [Saved (header t) rows_end]
         ∧ Forall (λ ev, is_save ev = false) before).
Proof.
  intros Hr. destruct (run_summary d tok t r Hr) as (tbl & evs & Hs & _ & ->).
  cbn [snd]. destruct (Nat.ltb_spec 0 (accepted_updates evs)) as [Hpos|Hz].
  - right. rewrite accepted_updates_app. cbn. split; [lia|]. eauto.
  - left. split; [lia | done].
Qed.

(** X7. The table that a run saves has the header as read, as many
    rows as read, every row of its length as read, and the cells as read
    in every column but the geometry column. *)
Theorem saved_table_keeps_shape d tok t r before columns rows_end :
  ready d tok t →
  (run d r).2 = before ++ [Saved columns rows_end] →
  columns = header t
  ∧ unchanged_but_column (geometry_idx t) (rows t) rows_end.
Proof.
  intros Hr. destruct (run_summary d tok t r Hr) as (tbl & evs & Hs & Hsh & ->).
  cbn [snd]. destruct (0 <? accepted_updates evs).
  - intros [_ [= <- <-]]%app_inj_tail. done.
  - intros ->. apply Forall_app in Hs as [_ Hs].
    apply Forall_inv in Hs. done.
Qed.

(** X8. Every request of a run goes to the record of a fulcrum id
    that stands, not empty, in the second cell of a row of the table,
    and carries the headers with the token of the run. *)
Theorem requests_go_to_table_records d tok t r rq :
  ready d tok t →
  rq ∈ requests_of (run d r).2 →
  ∃ i row id,
    rows t !! i = Some row ∧ row !! 1 = Some id ∧ id ≠ ""
    ∧ url rq = record_url id ∧ headers rq = api_headers tok.
Proof.
  intros Hr.
  set (aimed := λ rq : request,
         ∃ i row id, rows t !! i = Some row ∧ row !! 1 = Some id ∧ id ≠ ""
                     ∧ url rq = record_url id ∧ headers rq = api_headers tok).
  destruct (run_invariant (λ _ m, Forall aimed (requests_of (log m)))
              d tok t r Hr) as (st & m' & Hall & ->).
  { cbn. constructor. }
  { intros f [tbl n] m st' m1 _ Hm E.
    destruct (process_file_segment _ _ _ _ _ _ _ _ _ E) as (seg & -> & Hseg).
    unfold requests_of in *. rewrite omap_app. apply Forall_app. split; [done|].
    assert (∀ i id, day_to_row t !! stem f = Some (i, id) → id ≠ "" →
                    ∀ rq, url rq = record_url id →
                          headers rq = api_headers tok → aimed rq) as Haim.
    { intros i id Hl Hid rq' Hu Hh.
      destruct Hr as (_ & _ & _ & _ & _ & Hmap). rewrite Hmap in Hl.
      apply day_to_row_of_entry in Hl as (row & H0 & _ & H1).
      by exists i, row, id. }
    destruct Hseg as [->|[->|(i & id & a & Hl & Hid & [[_ ->]|(fv & coords & b & _ & _ & ->)])]];
      cbn; repeat constructor; by eapply Haim. }
  cbn [snd]. intros Hin. change (aimed rq).
  eapply (proj1 (Forall_forall aimed _)); [|exact Hin].
  destruct (0 <? st.2); [|done].
  unfold requests_of. rewrite omap_app. apply Forall_app. split; [done|].
  cbn. constructor.
Qed.
End RunMore.

(** ** The candidates and their date keys *)

Lemma endswith_exclusive name :
  endswith name ".gpx" = true → endswith name ".GPX" = false.
Proof.
  unfold endswith. cbn [String.length].
  destruct (4 <=? String.length name); [|done]. cbn [andb].
  intros ->%String.eqb_eq. done.
Qed.

Lemma NoDup_filter_bool {A} (p : A → bool) (l : list A) :
  NoDup l → NoDup (List.filter p l).
Proof.
  induction 1 as [|x l Hx _ IH]; cbn [List.filter]; [constructor|].
  destruct (p x) eqn:Hp; [|done]. constructor; [|done].
  rewrite elem_of_filter_bool. tauto.
Qed.

(** X10. When the directory lists no name twice, no candidate is
    visited twice: no name ends both in [.gpx] and in [.GPX]. *)
Theorem candidates_NoDup (names : list string) :
  NoDup names → NoDup (candidates names).
Proof.
  intros Hn. unfold candidates, sorted. rewrite merge_sort_Permutation.
  apply NoDup_app. split; [by apply NoDup_filter_bool|].
  split; [|by apply NoDup_filter_bool].
  intros name [_ Hl]%elem_of_filter_bool [_ Hu]%elem_of_filter_bool.
  apply endswith_exclusive in Hl. congruence.
Qed.

Lemma substring_0_app (a b : string) :
  String.substring 0 (String.length a) (a +:+ b) = a.
Proof. induction a as [|c a IH]; [by destruct b|]. rewrite str_app_cons. cbn. by rewrite IH. Qed.

Lemma substring_split (s : string) (i k : nat) :
  i + k = String.length s →
  s = String.substring 0 i s +:+ String.substring i k s.
Proof.
  revert i. induction s as [|c s IH]; intros i H.
  - cbn in H. assert (i = 0) as -> by lia. assert (k = 0) as -> by lia. done.
  - destruct i as [|i].
    + cbn [String.substring]. rewrite str_app_nil_l. cbn in H. subst k.
      clear IH. cbn [String.substring]. f_equal.
      induction s as [|c' s IH]; [done|]. cbn. by rewrite <- IH.
    + cbn [String.substring]. rewrite str_app_cons. f_equal. apply IH.
      cbn in H. lia.
Qed.

Lemma endswith_app name suffix :
  endswith name suffix = true → ∃ base, name = base +:+ suffix.
Proof.
  unfold endswith. intros [Hle Heq]%andb_true_iff.
  apply Nat.leb_le in Hle. apply String.eqb_eq in Heq.
  exists (String.substring 0 (String.length name - String.length suffix) name).
  remember (String.length suffix) as k eqn:Hk. rewrite <- Heq.
  apply substring_split. lia.
Qed.

Lemma rfind_dot_ext (base ext : string) :
  rfind "." ext = None →
  rfind "." (base +:+ String "." ext) = Some (String.length base).
Proof.
  intros He. induction base as [|c base IH].
  - rewrite str_app_nil_l. cbn [rfind]. by rewrite He.
  - rewrite str_app_cons. cbn [rfind String.length]. by rewrite IH.
Qed.

Lemma stem_ext (base ext : string) :
  rfind "." ext = None → ext ≠ "" →
  stem (base +:+ String "." ext)
  = if String.eqb base "" then String "." ext else base.
Proof.
  intros He Hne. unfold stem. rewrite rfind_dot_ext by done.
  destruct base as [|c base]; [done|].
  change (String.eqb (String c base) "") with false.
  rewrite str_length_app. cbn [String.length].
  assert (0 < String.length ext) by (destruct ext; [done | cbn; lia]).
  rewrite (proj2 (Nat.ltb_lt 0 _)) by lia.
  rewrite (proj2 (Nat.ltb_lt _ _)) by lia.
  cbn [andb]. apply (substring_0_app (String c base)).
Qed.

(** X11. The date key of a candidate file is its name without the
    four characters of the extension; the file named just [.gpx] or
    [.GPX] has its whole name as key. *)
Theorem candidate_date_key (name : string) :
  endswith name ".gpx" = true ∨ endswith name ".GPX" = true →
  ∃ base,
    (name = base +:+ ".gpx" ∨ name = base +:+ ".GPX")
    ∧ stem name = if String.eqb base "" then name else base.
Proof.
  intros [H|H]; apply endswith_app in H as [base ->]; exists base.
  - split; [by left|]. rewrite (stem_ext base "gpx") by done.
    by destruct base.
  - split; [by right|]. rewrite (stem_ext base "GPX") by done.
    by destruct base.
Qed.

(** X12. A key is absent from the lookup exactly when no row of two
    cells or more has it as first cell; and an entry of the lookup gives
    the position of a row whose first cell is the key and whose second
    cell is the id. *)
Theorem lookup_characterised (tbl : list (list string)) (key : string) :
  (day_to_row_of tbl !! key = None
   ↔ ∀ row, row ∈ tbl → 1 < length row → row !! 0 ≠ Some key)
  ∧ ∀ i id, day_to_row_of tbl !! key = Some (i, id) →
            ∃ row, tbl !! i = Some row ∧ row !! 0 = Some key
                   ∧ row !! 1 = Some id.
Proof.
  split; [|intros i id; apply day_to_row_of_entry].
  induction tbl as [|last tbl IH] using rev_ind.
  - split; [by intros _ row ?%elem_of_nil | done].
  - rewrite day_to_row_of_snoc.
    destruct (Nat.ltb_spec 1 (length last)) as [Hlen|Hlen].
    + destruct last as [|c0 [|c1 rest]]; [cbn in Hlen; lia..|].
      change ((c0 :: c1 :: rest) !!! 0) with c0.
      change ((c0 :: c1 :: rest) !!! 1) with c1.
      destruct (decide (c0 = key)) as [->|Hne].
      * rewrite lookup_insert_eq. split; [done|]. intros H. exfalso.
        apply (H (key :: c1 :: rest)); [|done..].
        apply elem_of_app. right. by left.
      * rewrite lookup_insert_ne by done. rewrite IH. split.
        -- intros H row [Hin|Hin]%elem_of_app; [by apply H|].
           apply list_elem_of_singleton in Hin as ->. intros _ [= ?]. done.
        -- intros H row Hin. apply H. apply elem_of_app. by left.
    + rewrite IH. split.
      * intros H row [Hin|Hin]%elem_of_app; [by apply H|].
        apply list_elem_of_singleton in Hin as ->. lia.
      * intros H row Hin. apply H. apply elem_of_app. by left.
Qed.

Section Unreadable.
Context {F : PyFloat} {N : Network}.

(** X13. A track file that cannot be opened or parsed is passed over:
    the table and the counter stay, no request is made, and the loop
    goes on with the next file. *)
Theorem unreadable_track_is_skipped (d : disk) tok (t : table) f rest
    (st : progress) (m : machine) :
  gpx_file d f = None →
  ∃ m',
    process_file d tok t f st m = (Returned st, m')
    ∧ net m' = net m
    ∧ requests_of (log m') = requests_of (log m)
    ∧ for_each (process_file d tok t) (f :: rest) st m
      = for_each (process_file d tok t) rest st m'.
Proof.
  intros Hg.
  assert (process_file d tok t f st m = (Returned st, m)
          ∨ process_file d tok t f st m = (Returned st, opened f m)) as [E|E].
  { destruct (day_to_row t !! stem f) as [[i id]|] eqn:Hl.
    2:{ left. by apply process_file_unmatched. }
    destruct (decide (id = "")) as [->|Hid].
    { left. by eapply process_file_no_id. }
    right. by eapply process_file_unparsed. }
  - exists m. split; [done|]. split; [done|]. split; [done|].
    by apply for_each_cons.
  - exists (opened f m). split; [done|]. split; [done|].
    split; [|by apply for_each_cons].
    unfold requests_of. cbn [opened log]. rewrite omap_app. cbn.
    by rewrite app_nil_r.
Qed.
End Unreadable.

(** ** The properties at the sample data *)

Import Sample.

Lemma read_decimal_decimal z : read_decimal (decimal z) = Some z.
Proof.
  unfold read_decimal, decimal. rewrite NilZero.isi.
  - simpl. by rewrite DecimalZ.of_to.
  - destruct z as [|p|p]; simpl; try discriminate.
    intros [= E]. by apply Unsigned.to_uint_nonnil in E.
  - destruct z as [|p|p]; simpl; try discriminate.
    intros [= E]. by apply Unsigned.to_uint_nonnil in E.
Qed.

Lemma digits_plain d : plain (NilEmpty.string_of_uint d) = true.
Proof. induction d; simpl; done. Qed.

Lemma number_plain d : plain (NilZero.string_of_uint d) = true.
Proof. destruct d; try apply digits_plain; done. Qed.

Lemma decimal_plain z : plain (decimal z) = true.
Proof.
  unfold decimal. destruct (Z.to_int z) as [d|d]; cbn [NilZero.string_of_int].
  - apply number_plain.
  - change (plain (String "-" ?s)) with (plain s). apply number_plain.
Qed.

Lemma folder_ready names : ready (folder names) "secret" sheet.
Proof.
  unfold ready. repeat split; try done. by exists " secret ".
Qed.

Lemma string_forall_app p a b :
  string_forall p (a +:+ b) = (string_forall p a && string_forall p b)%bool.
Proof.
  induction a as [|x a IH]; [done|]. rewrite str_app_cons. simpl.
  by rewrite IH, andb_assoc.
Qed.

Lemma digits_numeric d :
  string_forall (λ c, negb (Ascii.eqb c "." || Ascii.eqb c "n"))
    (NilEmpty.string_of_uint d) = true.
Proof. induction d; simpl; done. Qed.

Lemma decimal_numeric z :
  string_forall (λ c, negb (Ascii.eqb c "." || Ascii.eqb c "n")) (decimal z) = true.
Proof.
  unfold decimal.
  destruct (Z.to_int z) as [d|d]; cbn [NilZero.string_of_int];
    destruct d; try apply digits_numeric; done.
Qed.

Lemma decimal_point_not_nan z t :
  string_forall (λ c, negb (Ascii.eqb c "n")) t = false →
  (decimal z +:+ ".0" =? t)%string = false.
Proof.
  intros Ht. destruct (String.eqb_spec (decimal z +:+ ".0") t) as [E|]; [|done].
  rewrite <- E, string_forall_app in Ht.
  assert (string_forall (λ c, negb (Ascii.eqb c "n")) (decimal z) = true) as Hz.
  { eapply string_forall_impl; [|apply decimal_numeric].
    intros c. simpl. by destruct (Ascii.eqb c "."), (Ascii.eqb c "n"). }
  by rewrite Hz in Ht.
Qed.

(** Every whole-valued float reads back from its text. *)
Lemma whole_reads_back z :
  reads_back (F := Ieee.floats) Ieee.number_of_str (Ieee.Whole z).
Proof.
  split.
  - cbn [float_str Ieee.floats Ieee.number_str]. unfold Ieee.number_of_str.
    rewrite !decimal_point_not_nan by done.
    rewrite (take_until_app _ (decimal z)).
    + cbn. by rewrite read_decimal_decimal.
    + eapply string_forall_impl; [|apply decimal_numeric].
      intros c. simpl. by destruct (Ascii.eqb c "."), (Ascii.eqb c "n").
    + done.
  - cbn [float_str Ieee.floats Ieee.number_str]. unfold plain.
    rewrite string_forall_app. fold (plain (decimal z)).
    by rewrite decimal_plain.
Qed.

(** A NaN with its sign bit set does not: its text is read as the
    other NaN. *)
Lemma signed_nan_does_not_read_back :
  ¬ reads_back (F := Ieee.floats) Ieee.number_of_str (Ieee.NaN true).
Proof. by intros [[=] _]. Qed.

(** The text of the sample track reads back as its two points. *)
Lemma wkt_round_trip_track :
  all_read_back (F := Ieee.floats) Ieee.number_of_str Ieee.track
  ∧ linestring_wkt (F := Ieee.floats) Ieee.track = "LINESTRING(10.0 50.0, -12.0 52.0)"
  ∧ parse_wkt (F := Ieee.floats) Ieee.number_of_str (linestring_wkt (F := Ieee.floats) Ieee.track) = Some Ieee.track.
Proof.
  assert (all_read_back (F := Ieee.floats) Ieee.number_of_str Ieee.track) as H.
  { unfold all_read_back, Ieee.track.
    repeat (apply List.Forall_cons; [split; split; vm_compute; reflexivity|]).
    apply List.Forall_nil. }
  split; [exact H|]. split; [reflexivity|].
  exact (proj1 (wkt_round_trip (F := Ieee.floats) Ieee.number_of_str Ieee.track H)).
Defined.

(** The two points that are not numbers differ, and are written alike:
    no reader gives both back from their text. *)
Lemma nan_text_is_ambiguous :
  linestring_wkt (F := Ieee.floats) Ieee.plus = "LINESTRING(nan 0.0)"
  ∧ linestring_wkt (F := Ieee.floats) Ieee.minus = "LINESTRING(nan 0.0)"
  ∧ Ieee.plus ≠ Ieee.minus
  ∧ ∀ reader : string → option (list (@coord Ieee.floats)),
      ¬ (reader (linestring_wkt (F := Ieee.floats) Ieee.plus) = Some Ieee.plus
         ∧ reader (linestring_wkt (F := Ieee.floats) Ieee.minus) = Some Ieee.minus).
Proof.
  split; [reflexivity|]. split; [reflexivity|]. split; [discriminate|].
  intros reader [Hp Hm].
  change (linestring_wkt (F := Ieee.floats) Ieee.minus) with (linestring_wkt (F := Ieee.floats) Ieee.plus) in Hm.
  rewrite Hp in Hm. discriminate Hm.
Qed.

(** The fetch of [rec-1] is answered 404: the table stays, the loop goes on. *)
Lemma remote_failure_skips_walk :
  ∃ m',
    process_file (folder ["2024-05-01.gpx"]) "secret" sheet "2024-05-01.gpx"
      (entries, 0) (scanned (boot (answering [Some not_found])))
    = (Returned (entries, 0), m')
    ∧ for_each (process_file (folder ["2024-05-01.gpx"]) "secret" sheet)
        ["2024-05-01.gpx"; "2024-05-03.gpx"] (entries, 0)
        (scanned (boot (answering [Some not_found])))
      = for_each (process_file (folder ["2024-05-01.gpx"]) "secret" sheet)
          ["2024-05-03.gpx"] (entries, 0) m'.
Proof.
  apply (remote_failure_skips_file (folder ["2024-05-01.gpx"]) "secret" sheet
           "2024-05-01.gpx" ["2024-05-03.gpx"] entries 0
           (scanned (boot (answering [Some not_found]))) 0 "rec-1" walk).
  - vm_compute. reflexivity.
  - discriminate.
  - reflexivity.
  - discriminate.
  - left. exists not_found. split; [reflexivity | discriminate].
Defined.

(** A file without a row is passed over. *)
Lemma skipped_file_without_row :
  (∃ m',
     process_file (folder ["2024-05-04.gpx"]) "secret" sheet "2024-05-04.gpx"
       (entries, 0) (scanned (boot (answering [Some found])))
     = (Returned (entries, 0), m')
     ∧ net m' = answering [Some found]
     ∧ requests_of (log m') = []
     ∧ for_each (process_file (folder ["2024-05-04.gpx"]) "secret" sheet)
         ["2024-05-04.gpx"] (entries, 0)
         (scanned (boot (answering [Some found])))
       = for_each (process_file (folder ["2024-05-04.gpx"]) "secret" sheet)
           [] (entries, 0) m')
  ∧ (run (folder ["2024-05-04.gpx"]) (answering [Some found])).1 = 0%Z
  ∧ no_empty_geometry
      (run (folder ["2024-05-04.gpx"]) (answering [Some found])).2.
Proof.
  apply (skipped_file_makes_no_call (folder ["2024-05-04.gpx"]) "secret" sheet
           (answering [Some found]) "2024-05-04.gpx" [] (entries, 0)
           (scanned (boot (answering [Some found])))).
  - apply folder_ready.
  - left. vm_compute. reflexivity.
Defined.

(** A credential file of blanks ends the run at once. *)
Lemma blank_token_aborts :
  run folder_without_token (answering [Some found]) = (1%Z, []).
Proof.
  apply (fatal_precondition_aborts folder_without_token (answering [Some found])).
  right; right; right; left. exists "  ". split; reflexivity.
Defined.

(** Of three rows with the same date, the second is the last with a
    fulcrum id: its entry is the lookup's. *)
Lemma last_full_row_wins_repeated :
  day_to_row_of repeated !! "2024-05-01" = Some (1, "rec-9").
Proof.
  apply (last_full_row_wins repeated 1 ["2024-05-01"; "rec-9"]
           "2024-05-01" "rec-9"); try reflexivity.
  intros j later Hj Hl Hlen.
  destruct j as [|[|[|j]]]; [lia | lia | | discriminate Hl].
  injection Hl as <-. cbn in Hlen. lia.
Defined.

(** The row of [2024-05-03] stops before the geometry column: the file
    is counted, the table is saved as it was. *)
Lemma short_row_still_counts_stroll :
  (∃ m',
     process_file (folder ["2024-05-03.gpx"]) "secret" sheet "2024-05-03.gpx"
       (entries, 0)
       (scanned (boot (answering [Some found; Some replaced])))
     = (Returned (entries, 1), m'))
  ∧ ∃ evs rows_end,
      run (folder ["2024-05-03.gpx"]) (answering [Some found; Some replaced])
      = (0%Z, evs ++ [Saved columns rows_end]).
Proof.
  apply (short_row_still_counts (folder ["2024-05-03.gpx"]) "secret" sheet
           (answering [Some found; Some replaced]) [] "2024-05-03.gpx" []
           entries 0 (scanned (boot (answering [Some found; Some replaced])))
           3 "rec-3" stroll kept ["2024-05-03"; "rec-3"]).
  - apply folder_ready.
  - vm_compute. reflexivity.
  - reflexivity.
  - vm_compute. reflexivity.
  - discriminate.
  - reflexivity.
  - discriminate.
  - reflexivity.
  - exists replaced. split; reflexivity.
  - reflexivity.
  - cbn. lia.
Defined.


(** C1, as stated, fails: the fetch is answered 404 and no replacement
    is sent. *)
Lemma refused_fetch_sends_no_update :
  let m := (update_fulcrum_record "rec-1" (coordinates_of walk) "secret"
              (boot (answering [Some not_found]))).2 in
  log m = [Sent (fetch_request "rec-1" "secret") (Some not_found)]
  ∧ ¬ ∃ fv, update_request "rec-1" "secret" fv (coordinates_of walk)
            ∈ requests_of (log m).
Proof.
  split; [reflexivity|]. intros (fv & Hin).
  apply list_elem_of_singleton in Hin. discriminate Hin.
Qed.


(** C8, as stated, fails: the last row with the date has one cell, and
    the entry is the first row's. *)
Lemma short_row_does_not_shadow :
  shadowed !! 0 = Some ["2024-05-01"; "rec-1"]
  ∧ shadowed !! 1 = Some ["2024-05-01"]
  ∧ day_to_row_of shadowed !! "2024-05-01" = Some (0, "rec-1").
Proof. by vm_compute. Qed.

(** C9, as stated, fails: [track.Gpx] has the track extension in mixed
    case and is no candidate. *)
Lemma mixed_case_is_no_candidate :
  "track.Gpx" ∈ ["track.Gpx"; "a.gpx"]
  ∧ has_track_extension "track.Gpx" = true
  ∧ candidates ["track.Gpx"; "a.gpx"] = ["a.gpx"]
  ∧ "track.Gpx" ∉ candidates ["track.Gpx"; "a.gpx"].
Proof.
  split; [by left|]. split; [reflexivity|]. split; [reflexivity|].
  change (candidates ["track.Gpx"; "a.gpx"]) with ["a.gpx"].
  intros Hin. apply list_elem_of_singleton in Hin. discriminate Hin.
Qed.

(** ** The further properties at the sample data *)

(** The walk is accepted: the run ends with the one save. *)
Lemma table_saved_after_walk :
  let evs := (run (folder ["2024-05-01.gpx"])
                  (answering [Some found; Some replaced])).2 in
  (accepted_updates evs = 0 ∧ Forall (λ ev, is_save ev = false) evs)
  ∨ (0 < accepted_updates evs
     ∧ ∃ before rows_end,
         evs = before ++ [Saved (header sheet) rows_end]
         ∧ Forall (λ ev, is_save ev = false) before).
Proof.
  exact (table_saved_iff_update_accepted (folder ["2024-05-01.gpx"]) "secret"
           sheet (answering [Some found; Some replaced]) (folder_ready _)).
Defined.

(** The table saved after the walk differs from the table read in the
    geometry cell of the first row only. *)
Lemma saved_table_keeps_shape_walk :
  columns = header sheet
  ∧ unchanged_but_column (geometry_idx sheet) (rows sheet)
      [ ["2024-05-01"; "rec-1"; "walk"; "LINESTRING(10 50, 11 51, -12 52)"];
        ["2024-05-05"; "rec-5"; "rest"; ""];
        ["2024-05-02"; ""; "home"; ""];
        ["2024-05-03"; "rec-3"] ].
Proof.
  apply (saved_table_keeps_shape (folder ["2024-05-01.gpx"]) "secret" sheet
           (answering [Some found; Some replaced])
           (removelast (run (folder ["2024-05-01.gpx"])
                            (answering [Some found; Some replaced])).2)).
  - apply folder_ready.
  - vm_compute. reflexivity.
Defined.

(** The fetch of the walk's record goes to [rec-1], the id of the first
    row. *)
Lemma fetch_of_walk_goes_to_its_row :
  ∃ i row id,
    rows sheet !! i = Some row ∧ row !! 1 = Some id ∧ id ≠ ""
    ∧ url (fetch_request "rec-1" "secret") = record_url id
    ∧ headers (fetch_request "rec-1" "secret") = api_headers "secret".
Proof.
  apply (requests_go_to_table_records (folder ["2024-05-01.gpx"]) "secret"
           sheet (answering [Some found; Some replaced])).
  - apply folder_ready.
  - rewrite list_elem_of_In. vm_compute. tauto.
Defined.

(** The log of the run over two files, one refused. *)
Lemma run_log_shape_two_files :
  ∃ segs rest,
    Forall2 (file_segment "secret" sheet)
            (candidates ["2024-05-03.gpx"; "2024-05-01.gpx"]) segs
    ∧ (run (folder ["2024-05-03.gpx"; "2024-05-01.gpx"])
           (answering [Some not_found; Some found; Some replaced])).2
      = [Scanned "*.gpx"; Scanned "*.GPX"] ++ concat segs ++ rest
    ∧ (rest = [] ∨ ∃ rows_end, rest = [Saved (header sheet) rows_end]).
Proof.
  exact (run_log_shape (folder ["2024-05-03.gpx"; "2024-05-01.gpx"]) "secret"
           sheet (answering [Some not_found; Some found; Some replaced])
           (folder_ready _)).
Defined.

(** Three names, two candidates, each once. *)
Lemma candidates_NoDup_sample :
  candidates ["b.gpx"; "a.GPX"; "c.txt"] = ["a.GPX"; "b.gpx"]
  ∧ NoDup (candidates ["b.gpx"; "a.GPX"; "c.txt"]).
Proof.
  split; [reflexivity|].
  apply (candidates_NoDup ["b.gpx"; "a.GPX"; "c.txt"]).
  apply (bool_decide_unpack _). vm_compute. exact I.
Defined.

(** The date key of [2024-05-01.gpx]. *)
Lemma candidate_date_key_sample :
  ∃ base,
    ("2024-05-01.gpx" = base +:+ ".gpx" ∨ "2024-05-01.gpx" = base +:+ ".GPX")
    ∧ stem "2024-05-01.gpx"
      = if String.eqb base "" then "2024-05-01.gpx" else base.
Proof.
  apply (candidate_date_key "2024-05-01.gpx"). left. reflexivity.
Defined.

(** The track of the first row cannot be parsed: nothing is asked of
    the remote. *)
Lemma unreadable_track_sample :
  ∃ m',
    process_file Faulty.folder "secret" sheet "2024-05-01.gpx" (entries, 0)
      (scanned (boot (answering [Some found; Some replaced])))
    = (Returned (entries, 0), m')
    ∧ net m' = answering [Some found; Some replaced]
    ∧ requests_of (log m') = []
    ∧ for_each (process_file Faulty.folder "secret" sheet)
        ["2024-05-01.gpx"] (entries, 0)
        (scanned (boot (answering [Some found; Some replaced])))
      = for_each (process_file Faulty.folder "secret" sheet)
          [] (entries, 0) m'.
Proof.
  apply (unreadable_track_is_skipped Faulty.folder "secret" sheet
           "2024-05-01.gpx" [] (entries, 0)
           (scanned (boot (answering [Some found; Some replaced])))).
  reflexivity.
Defined.
